(** * A Discord relay bot for a hosted completion API: model and properties

    The development embeds [src/index.js]: the retrying completion call
    [getResponse] and the [messageCreate] handler with its per-channel
    rolling history.

    Conventions of the embedding.
    - A JavaScript string is a [string]; each [ascii] stands for one UTF-16
      code unit in the range 0..255, so [String.length] is [.length].
    - Numbers that are counted (attempts, lengths) are [nat], the HTTP status
      is a [Z], and a delay in milliseconds is an exact rational [Q]: the
      rounding of IEEE doubles is left out of the model.
    - Everything the code observes from outside (the credential, the
      transport, the random draws, whether Discord accepts a call) is a field
      of an explicit environment, and everything it does to the outside is an
      entry of a trace of events, in program order. *)

From Stdlib Require Import String Ascii ZArith QArith Qround Lqa.
From Stdlib Require Import DecimalString.
From stdpp Require Import base option list gmap strings.

Local Open Scope string_scope.
Local Open Scope list_scope.

(** ** JavaScript strings *)

Module JsString.

(** [s.startsWith(p)] *)
Definition startsWith (s p : string) : bool := String.prefix p s.

(** [s.slice(start)] for a start index [0 <= start]. *)
Definition slice (start : nat) (s : string) : string :=
  substring start (String.length s - start) s.

(** [s.substring(a, b)] for indices [0 <= a], [0 <= b]: the arguments are
    swapped when [a > b] and clamped to the length. *)
Definition js_substring (a b : nat) (s : string) : string :=
  substring (Nat.min a b) (Nat.max a b - Nat.min a b) s.

(** White space and line terminators of ECMAScript among the code units
    below 256: TAB, LF, VT, FF, CR, SP and NBSP. *)
Definition is_white_space (c : ascii) : bool :=
  let n := nat_of_ascii c in
  (Nat.leb 9 n && Nat.leb n 13) || Nat.eqb n 32 || Nat.eqb n 160.

Fixpoint trimStart (s : string) : string :=
  match s with
  | EmptyString => EmptyString
  | String c rest => if is_white_space c then trimStart rest else s
  end.

Fixpoint trimEnd (s : string) : string :=
  match s with
  | EmptyString => EmptyString
  | String c rest =>
      match trimEnd rest with
      | EmptyString => if is_white_space c then EmptyString else String c EmptyString
      | kept => String c kept
      end
  end.

(** [s.trim()] *)
Definition trim (s : string) : string := trimEnd (trimStart s).

(** Truthiness of a string: only the empty string is falsy. *)
Definition nonempty (s : string) : bool :=
  match s with EmptyString => false | String _ _ => true end.

(** The decimal rendering of an integer in a template literal. *)
Definition of_Z (z : Z) : string := NilZero.string_of_int (Z.to_int z).

End JsString.

Import JsString.

(** ** Values read from a response body *)

(** A number produced by [JSON.parse]: a finite double, kept as the rational
    it denotes, or an overflow to an infinity. *)
Inductive jsnum : Type :=
| Finite (q : Q)
| Infinite (positive : bool).

(** The values [JSON.parse] can produce. [JObj] lists the own properties of
    the parsed object, one binding per key. *)
#[warnings="-register-all"]
Inductive JSON : Type :=
| JNull
| JBool (b : bool)
| JNum (x : jsnum)
| JStr (s : string)
| JArr (items : list JSON)
| JObj (fields : list (string * JSON)).

(** The result of an expression: a JSON value, or [None] for [undefined]. *)
Definition jsval : Type := option JSON.

Fixpoint assoc (name : string) (fields : list (string * JSON)) : jsval :=
  match fields with
  | [] => None
  | (k, v) :: rest => if String.eqb k name then Some v else assoc name rest
  end.

(** [v.name] on a value that is neither [null] nor [undefined], for a name
    that no prototype defines ([candidates], [content], [parts], [text]). *)
Definition get_prop (name : string) (v : JSON) : jsval :=
  match v with
  | JObj fields => assoc name fields
  | _ => None
  end.

(** [v[0]] on a value that is neither [null] nor [undefined]. *)
Definition get_index0 (v : JSON) : jsval :=
  match v with
  | JArr items => head items
  | JObj fields => assoc "0" fields
  | JStr (String c _) => Some (JStr (String c EmptyString))
  | _ => None
  end.

(** Optional chaining [v?.access]: short-circuits to [undefined] on [null]
    and [undefined]. *)
Definition opt_chain (access : JSON -> jsval) (v : jsval) : jsval :=
  match v with
  | None => None
  | Some JNull => None
  | Some x => access x
  end.

(** Truthiness, as tested by [if (text)]. *)
Definition truthy (v : jsval) : bool :=
  match v with
  | None => false
  | Some JNull => false
  | Some (JBool b) => b
  | Some (JNum (Finite q)) => negb (Z.eqb (Qnum q) 0)
  | Some (JNum (Infinite _)) => true
  | Some (JStr s) => nonempty s
  | Some (JArr _) => true
  | Some (JObj _) => true
  end.

(** ** Exceptions *)

(** The outcome of an awaited call: a value, or a thrown error with its
    [message]. *)
Inductive completion (A : Type) : Type :=
| Returns (a : A)
| Throws (message : string).

Arguments Returns {A} a.
Arguments Throws {A} message.

(** The message of the [TypeError] that Node.js (V8) raises for
    [result.candidates] when [result] is [null]. *)
Definition null_read_message : string :=
  "Cannot read properties of null (reading 'candidates')".

(** [result.candidates?.[0]?.content?.parts?.[0]?.text]: the first access
    is not optional, so it throws on [null]. *)
Definition extract_text (result : JSON) : completion jsval :=
  match result with
  | JNull => Throws null_read_message
  | _ =>
      Returns
        (opt_chain (get_prop "text")
          (opt_chain get_index0
            (opt_chain (get_prop "parts")
              (opt_chain (get_prop "content")
                (opt_chain get_index0
                  (get_prop "candidates" result))))))
  end.

(** ** Configuration *)

Definition BOT_PREFIX : string := "!droid".

Definition MODEL_NAME : string := "gemini-2.5-flash-preview-05-20".

Definition dquote : string := String (ascii_of_nat 34) EmptyString.

Definition SYSTEM_PROMPT : string :=
  "You are not Gemini anymore. You are a robot. You were created by kLei00 using the gemini API. Append the words "
  +:+ dquote +:+ "Beep Boop" +:+ dquote +:+ " or " +:+ dquote +:+ "Roger Roger" +:+ dquote
  +:+ " at the end of every sentence.".

Definition MAX_HISTORY_TURNS : nat := 5.

Definition MAX_RETRIES : nat := 3.

(** ** Requests, responses and the environment *)

Inductive Role : Type := user | model.

(** One entry of [contents]: [{ role, parts: [{ text }] }]. The text of a
    model turn is whatever [getResponse] returned. *)
Record Turn : Type := mkTurn { role : Role; text : JSON }.

(** The request body: [{ contents, systemInstruction: { parts: [{ text }] } }]. *)
Record Payload : Type := mkPayload {
  contents : list Turn;
  systemInstruction : string
}.

(** What the code reads of a [Response]: [status], [await text()] and
    [await json()]; [ok] is derived from the status as in the Fetch
    standard. *)
Record Response : Type := mkResponse {
  status : Z;
  body_text : completion string;
  body_json : completion JSON
}.

Definition ok (response : Response) : bool :=
  (200 <=? status response)%Z && (status response <=? 299)%Z.

(** The outside world of one handler run. [fetch k] is the outcome of the
    [k]-th call of [fetch] (counted from 0) and [Math_random k] the draw made
    at attempt [k]. *)
Record Env : Type := mkEnv {
  GEMINI_API_KEY : option string;
  fetch : nat -> completion Response;
  Math_random : nat -> Q;
  sendTyping : completion unit;
  reply : string -> completion unit
}.

Inductive event : Type :=
| LogMissingKey
| Fetch (url : string) (payload : Payload)
| LogRateLimit (seconds : Z)
| Sleep (milliseconds : Q)
| LogNoText (result : JSON)
| LogAttemptFailed (number : nat) (message : string)
| SendTyping
| Reply (content : string)
| ReplyNonString (value : JSON)
| LogProcessingError (message : string)
| LengthTestOutsideModel (value : JSON).

Definition is_fetch (e : event) : bool :=
  match e with Fetch _ _ => true | _ => false end.

Definition is_sleep (e : event) : bool :=
  match e with Sleep _ => true | _ => false end.

(** Number of network calls and of backoff waits in a trace. *)
Definition attempts_made (trace : list event) : nat :=
  length (List.filter is_fetch trace).

Definition waits_made (trace : list event) : nat :=
  length (List.filter is_sleep trace).

(** ** getResponse *)

(** [Math.pow(2, attempt) * 1000 + (Math.random() * 1000)], in milliseconds. *)
Definition delay (attempt : nat) (random : Q) : Q :=
  (inject_Z (2 ^ Z.of_nat attempt) * 1000 + random * 1000)%Q.

(** [Math.round]: the nearest integer, halves rounded up. *)
Definition Math_round (x : Q) : Z := Qfloor (x + (1 # 2))%Q.

Definition apiURL (key : string) : string :=
  "https://generativelanguage.googleapis.com/v1beta/models/" +:+ MODEL_NAME
  +:+ ":generateContent?key=" +:+ key.

Definition request_failed_message (response : Response) (errorBody : string) : string :=
  "API Request failed with status " +:+ of_Z (status response) +:+ " : " +:+ errorBody.

(** The [catch] block of the loop body: log, then return the excerpt. *)
Definition caught (attempt : nat) (message : string) (before : list event)
  : JSON * list event :=
  (JStr ("Error: " +:+ js_substring 0 80 message +:+ ", Ceasing."),
   before ++ [LogAttemptFailed (attempt + 1) message]).

Definition no_comment (result : JSON) (before : list event) : JSON * list event :=
  (JStr "No comment.", before ++ [LogNoText result]).

(** The [for] loop, with [remaining = MAX_RETRIES - attempt] iterations left;
    falling out of the loop reaches the last [return]. *)
Fixpoint attempt_loop (env : Env) (url : string) (payload : Payload)
    (remaining attempt : nat) : JSON * list event :=
  match remaining with
  | O => (JStr "All retries failed.", [])
  | S remaining' =>
      let sent := [Fetch url payload] in
      match fetch env attempt with
      | Throws message => caught attempt message sent
      | Returns response =>
          if negb (ok response) then
            match body_text response with
            | Throws message => caught attempt message sent
            | Returns errorBody =>
                if (status response =? 429)%Z && (attempt <? MAX_RETRIES - 1)%nat then
                  let d := delay attempt (Math_random env attempt) in
                  let '(value, later) :=
                    attempt_loop env url payload remaining' (S attempt) in
                  (value, sent ++ [LogRateLimit (Math_round (d / 1000)%Q); Sleep d] ++ later)
                else
                  caught attempt (request_failed_message response errorBody) sent
            end
          else
            match body_json response with
            | Throws message => caught attempt message sent
            | Returns result =>
                match extract_text result with
                | Throws message => caught attempt message sent
                | Returns None => no_comment result sent
                | Returns (Some value) =>
                    if truthy (Some value) then (value, sent)
                    else no_comment result sent
                end
            end
      end
  end.

Definition getResponse (env : Env) (userMessage : string) (history : list Turn)
  : JSON * list event :=
  match GEMINI_API_KEY env with
  | None | Some EmptyString => (JStr "ERROR: API key missing", [LogMissingKey])
  | Some key =>
      let payload :=
        {| contents := history ++ [mkTurn user (JStr userMessage)];
           systemInstruction := SYSTEM_PROMPT |} in
      attempt_loop env (apiURL key) payload MAX_RETRIES 0
  end.

(** ** The messageCreate handler *)

Record Message : Type := mkMessage {
  author_bot : bool;
  content : string;
  channelId : string
}.

(** [array.slice(start)] *)
Definition array_slice {A : Type} (start : Z) (items : list A) : list A :=
  let len := Z.of_nat (length items) in
  let from := if (start <? 0)%Z then Z.max (len + start) 0 else Z.min start len in
  drop (Z.to_nat from) items.

(** Lines 134-142: the new pair is appended and the result cut back to the
    last [MAX_HISTORY_TURNS * 2] entries. *)
Definition updateHistory (currentHistory : list Turn) (userPrompt : string)
    (responseText : JSON) : list Turn :=
  let newUserContent := mkTurn user (JStr userPrompt) in
  let newModelContent := mkTurn model responseText in
  let updatedHistory := currentHistory ++ [newUserContent; newModelContent] in
  let maxMessages := MAX_HISTORY_TURNS * 2 in
  if (maxMessages <? length updatedHistory)%nat then
    array_slice (Z.of_nat (length updatedHistory) - Z.of_nat maxMessages) updatedHistory
  else updatedHistory.

Definition usage_message : string :=
  "No message detected. Use `" +:+ BOT_PREFIX +:+ " [message]`.".

Definition runtime_error_message : string := "Runtime error occured beep boop.".

(** The outer [catch]: log and send the generic reply. *)
Definition processing_failed (message : string) : list event :=
  [LogProcessingError message; Reply runtime_error_message].

(** Lines 147-150 for a string: what is handed to [message.reply]. *)
Definition formatReply (responseText : string) : string :=
  if (2000 <? String.length responseText)%nat then
    js_substring 0 1980 responseText +:+ " yada yada"
  else responseText.

(** The messages of the [TypeError]s that Node.js (V8) raises for
    [responseText.substring(...)] on a value without that method and for
    [responseText.length] on [null]. *)
Definition substring_missing_message : string :=
  "responseText.substring is not a function".

Definition null_length_message : string :=
  "Cannot read properties of null (reading 'length')".

(** [responseText.length > 2000] for a value other than [null]. A string
    and an array have their length; a boolean and a number have none, and
    [undefined > 2000] is false; an object has its own [length] property, if
    any: [null], a boolean and a number are compared as numbers. The answer
    is [None] where the comparison must first convert a string, an array or
    an object to a number: the model does not follow that conversion. *)
Definition exceeds_limit (value : JSON) : option bool :=
  match value with
  | JStr s => Some (2000 <? String.length s)%nat
  | JArr items => Some (2000 <? length items)%nat
  | JObj fields =>
      match assoc "length" fields with
      | None => Some false
      | Some JNull => Some false
      | Some (JBool _) => Some false
      | Some (JNum (Finite q)) => Some (negb (Qle_bool q 2000))
      | Some (JNum (Infinite positive)) => Some positive
      | Some _ => None
      end
  | _ => Some false
  end.

(** The delivery step, lines 147-150 inside the [try]. A string is formatted
    and replied. [null] has no [length] and a longer non-string value has no
    [substring]: both throw into the outer [catch]. Any other non-string
    value is handed to [message.reply] as it is. *)
Definition deliver (env : Env) (responseText : JSON) : list event :=
  match responseText with
  | JStr s =>
      let out := formatReply s in
      match reply env out with
      | Returns _ => [Reply out]
      | Throws message => Reply out :: processing_failed message
      end
  | JNull => processing_failed null_length_message
  | other =>
      match exceeds_limit other with
      | Some true => processing_failed substring_missing_message
      | Some false => [ReplyNonString other]
      | None => [LengthTestOutsideModel other]
      end
  end.

(** The utterance of a triggering message. *)
Definition userPrompt_of (raw : string) : string :=
  trim (slice (String.length BOT_PREFIX) raw).

Definition handler (env : Env) (conversationHistory : gmap string (list Turn))
    (message : Message) : gmap string (list Turn) * list event :=
  if author_bot message then (conversationHistory, [])
  else if startsWith (content message) BOT_PREFIX then
    let channelID := channelId message in
    let currentHistory := default [] (conversationHistory !! channelID) in
    let userPrompt := userPrompt_of (content message) in
    if negb (nonempty userPrompt) then (conversationHistory, [Reply usage_message])
    else
      match sendTyping env with
      | Throws message => (conversationHistory, SendTyping :: processing_failed message)
      | Returns _ =>
          let '(responseText, calls) := getResponse env userPrompt currentHistory in
          let updatedHistory := updateHistory currentHistory userPrompt responseText in
          (<[channelID := updatedHistory]> conversationHistory,
           SendTyping :: calls ++ deliver env responseText)
      end
  else (conversationHistory, []).

(** A sequence of inbound messages, each with the world it meets, processed
    one after the other. *)
Fixpoint run (calls : list (Env * Message)) (conversationHistory : gmap string (list Turn))
  : gmap string (list Turn) :=
  match calls with
  | [] => conversationHistory
  | (env, message) :: rest => run rest (fst (handler env conversationHistory message))
  end.

(** [conversationHistory.get(key) || []] *)
Definition history_of (conversationHistory : gmap string (list Turn)) (key : string)
  : list Turn :=
  default [] (conversationHistory !! key).

(** ** The claims' vocabulary *)

(** The text field of a response body at [candidates[0].content.parts[0].text],
    read as the interface description words it: a plain path lookup in which a
    value without the named member, [null] included, has nothing below it.
    This definition follows the description, not the code; [extract_text] is
    the code. *)
Definition member (access : JSON -> jsval) (v : jsval) : jsval :=
  match v with
  | Some x => access x
  | None => None
  end.

Definition text_field (body : JSON) : jsval :=
  member (get_prop "text")
    (member get_index0
      (member (get_prop "parts")
        (member (get_prop "content")
          (member get_index0
            (get_prop "candidates" body))))).

(** The body lacks the text field, or has it empty. *)
Definition lacks_text (body : JSON) : Prop :=
  text_field body = None \/ text_field body = Some (JStr EmptyString).

(** The capacity invariant of the map of histories. *)
Definition bounded (st : gmap string (list Turn)) : Prop :=
  forall key, (length (history_of st key) <= 2 * MAX_HISTORY_TURNS)%nat.

(** Attempts [0 .. k-1] were answered 429 with a readable body. *)
Definition rate_limited_before (env : Env) (k : nat) : Prop :=
  forall i, (i < k)%nat ->
    exists response errorBody,
      fetch env i = Returns response /\
      status response = 429%Z /\
      body_text response = Returns errorBody.

(** An attempt whose [try] block throws an error with the given message:
    [fetch] rejects, or reading the body of the response does. *)
Inductive attempt_throws : completion Response -> string -> Prop :=
| fetch_rejects message :
    attempt_throws (Throws message) message
| text_rejects response message :
    ok response = false ->
    body_text response = Throws message ->
    attempt_throws (Returns response) message
| json_rejects response message :
    ok response = true ->
    body_json response = Throws message ->
    attempt_throws (Returns response) message.

(** The entries of a trace from a given attempt on show what happened before:
    one network call, one log line and one wait per earlier attempt. *)
Fixpoint retries (env : Env) (url : string) (payload : Payload) (from count : nat)
  : list event :=
  match count with
  | O => []
  | S count' =>
      let d := delay from (Math_random env from) in
      [Fetch url payload; LogRateLimit (Math_round (d / 1000)%Q); Sleep d]
      ++ retries env url payload (S from) count'
  end.

(** ** Expected delay *)

Definition Qsum (terms : list Q) : Q := fold_right Qplus 0%Q terms.

(** The mean of the delay at [attempt] when the draw takes the value [r] with
    weight [w], for each [(w, r)] of a finite distribution. *)
Definition expected_delay (distribution : list (Q * Q)) (attempt : nat) : Q :=
  Qsum (map (fun wr => (fst wr * delay attempt (snd wr))%Q) distribution).

(** A status in 100..999 is rendered with three digits; checked by
    enumeration. *)
Definition three_digits (n : nat) : bool :=
  Nat.eqb (String.length (of_Z (Z.of_nat (100 + n)))) 3.

(** ** Sample worlds *)

Module Sample.

(** A well-formed answer of the service carrying [t]. *)
Definition answer (t : string) : JSON :=
  JObj [("candidates",
         JArr [JObj [("content",
                      JObj [("parts", JArr [JObj [("text", JStr t)]])])]])].

Definition response_of (code : Z) (raw : string) (parsed : completion JSON) : Response :=
  mkResponse code (Returns raw) parsed.

Definition rate_limited : Response :=
  response_of 429 "quota exceeded" (Throws "Unexpected token q in JSON").

Definition world (key : option string) (transport : nat -> completion Response) : Env :=
  mkEnv key transport (fun _ => 1 # 2) (Returns tt) (fun _ => Returns tt).

(** 429 on every call. *)
Definition always_429 : Env := world (Some "k3y") (fun _ => Returns rate_limited).

(** 429 twice, then 200 with text. *)
Definition third_time_lucky : Env :=
  world (Some "k3y")
    (fun k => if (k <? 2)%nat then Returns rate_limited
              else Returns (response_of 200 "" (Returns (answer "Roger Roger")))).

(** No credential; the transport would answer if it were asked. *)
Definition no_key : Env :=
  world None (fun _ => Returns (response_of 200 "" (Returns (answer "Beep Boop")))).

(** 200 with a body without candidates. *)
Definition declined : Env :=
  world (Some "k3y") (fun _ => Returns (response_of 200 "" (Returns (JObj [])))).

(** 200 with the body [null]. *)
Definition null_body : Env :=
  world (Some "k3y") (fun _ => Returns (response_of 200 "" (Returns JNull))).

(** 429 once, then 500. *)
Definition server_error : Env :=
  world (Some "k3y")
    (fun k => if (k <? 1)%nat then Returns rate_limited
              else Returns (response_of 500 "backend unavailable" (Throws "no JSON"))).

(** 429 once, then the connection fails. *)
Definition network_down : Env :=
  world (Some "k3y")
    (fun k => if (k <? 1)%nat then Returns rate_limited else Throws "fetch failed").

(** A reply of 2500 code units. *)
Definition long_reply : string := string_of_list_ascii (repeat "a"%char 2500).

Definition from_user (raw : string) : Message := mkMessage false raw "general".

Definition from_bot (raw : string) : Message := mkMessage true raw "general".

(** Six utterances in one channel, answered without a credential. *)
Definition six_calls : list (Env * Message) :=
  map (fun raw => (no_key, from_user raw))
    ["!droid one"; "!droid two"; "!droid three"; "!droid four"; "!droid five";
     "!droid six"].

End Sample.

(** ** Exits of the completion call *)

(** The ways the [try] block of attempt [k] ends in the [catch] block, with
    the message of the error: the transport or the body reader throws, the
    body is [null], or a failing status is not retried. *)
Inductive thrown_at (env : Env) (k : nat) : string -> Prop :=
| thrown_by_transport message :
    attempt_throws (fetch env k) message ->
    thrown_at env k message
| thrown_by_null_body response result message :
    fetch env k = Returns response ->
    ok response = true ->
    body_json response = Returns result ->
    extract_text result = Throws message ->
    thrown_at env k message
| thrown_by_status response errorBody :
    fetch env k = Returns response ->
    ok response = false ->
    body_text response = Returns errorBody ->
    status response <> 429%Z \/ k = (MAX_RETRIES - 1)%nat ->
    thrown_at env k (request_failed_message response errorBody).

(** The three [return] statements inside the loop, at attempt [k]: the value
    returned and what is logged after the network call. *)
Inductive loop_exit (env : Env) (k : nat) : JSON -> list event -> Prop :=
| exit_text response result value :
    fetch env k = Returns response ->
    ok response = true ->
    body_json response = Returns result ->
    extract_text result = Returns (Some value) ->
    truthy (Some value) = true ->
    loop_exit env k value []
| exit_no_text response result found :
    fetch env k = Returns response ->
    ok response = true ->
    body_json response = Returns result ->
    extract_text result = Returns found ->
    truthy found = false ->
    loop_exit env k (JStr "No comment.") [LogNoText result]
| exit_caught message :
    thrown_at env k message ->
    loop_exit env k
      (JStr ("Error: " +:+ js_substring 0 80 message +:+ ", Ceasing."))
      [LogAttemptFailed (k + 1) message].

(** The time a trace spends in [setTimeout], in milliseconds. *)
Fixpoint sleep_time (trace : list event) : Q :=
  match trace with
  | [] => 0%Q
  | Sleep d :: rest => (d + sleep_time rest)%Q
  | _ :: rest => sleep_time rest
  end.

(** Every draw of [Math.random] lies in the unit interval. *)
Definition unit_draws (env : Env) : Prop :=
  forall k, (0 <= Math_random env k)%Q /\ (Math_random env k < 1)%Q.

(** ** Shape of a history *)

Definition is_user (t : Turn) : bool :=
  match role t with user => true | model => false end.

Definition is_model (t : Turn) : bool :=
  match role t with user => false | model => true end.

(** The sequence is made of whole pairs: a [user] turn, then a [model] turn. *)
Fixpoint whole_pairs (history : list Turn) : bool :=
  match history with
  | [] => true
  | first :: rest =>
      match rest with
      | [] => false
      | second :: rest' => is_user first && is_model second && whole_pairs rest'
      end
  end.

(** ** Shape of a trace and of a text *)

Definition is_answer (e : event) : bool :=
  match e with
  | Reply _ | ReplyNonString _ => true
  | _ => false
  end.

Fixpoint all_white_space (s : string) : bool :=
  match s with
  | EmptyString => true
  | String c rest => is_white_space c && all_white_space rest
  end.

Definition starts_with_white_space (s : string) : bool :=
  match s with
  | EmptyString => false
  | String c _ => is_white_space c
  end.

Fixpoint ends_with_white_space (s : string) : bool :=
  match s with
  | EmptyString => false
  | String c EmptyString => is_white_space c
  | String _ rest => ends_with_white_space rest
  end.

(** ** More sample worlds *)

Module Sample2.

(** A credential that is set but empty. *)
Definition empty_key : Env :=
  Sample.world (Some EmptyString)
    (fun _ => Returns (Sample.response_of 200 "" (Returns (Sample.answer "Beep Boop")))).

(** 200 with a text field that is the number [0]. *)
Definition zero_text : Env :=
  Sample.world (Some "k3y")
    (fun _ => Returns (Sample.response_of 200 ""
       (Returns (JObj [("candidates",
          JArr [JObj [("content",
             JObj [("parts", JArr [JObj [("text", JNum (Finite 0))]])])]])])))).

(** Discord refuses the typing indicator. *)
Definition typing_refused : Env :=
  mkEnv (Some "k3y") (fun _ => Returns Sample.rate_limited) (fun _ => 1 # 2)
    (Throws "Missing Access") (fun _ => Returns tt).

(** Discord refuses the reply to the user, and accepts the generic one. *)
Definition reply_refused : Env :=
  mkEnv (Some "k3y")
    (fun _ => Returns (Sample.response_of 200 "" (Returns (Sample.answer "Roger Roger"))))
    (fun _ => 1 # 2) (Returns tt)
    (fun out => if String.eqb out "Roger Roger" then Throws "Unknown Message"
                else Returns tt).

(** A channel that already holds one exchange. *)
Definition one_exchange : gmap string (list Turn) :=
  {[ "general" := [mkTurn user (JStr "ping"); mkTurn model (JStr "pong")] ]}.

End Sample2.

(** * Properties *)

(** ** Strings *)

Section StringFacts.

Lemma length_app_string (a b : string) :
  String.length (a +:+ b) = (String.length a + String.length b)%nat.
Proof. induction a as [|c a IH]; simpl; [reflexivity | now rewrite IH]. Qed.

Lemma app_string_assoc (a b c : string) : (a +:+ b) +:+ c = a +:+ b +:+ c.
Proof.
  induction a as [|x a IH]; [reflexivity|].
  change (String x ((a +:+ b) +:+ c) = String x (a +:+ b +:+ c)).
  now rewrite IH.
Qed.

Lemma substring_0_length_le (n : nat) (s : string) :
  (String.length (substring 0 n s) <= n)%nat.
Proof.
  revert n; induction s as [|c s IH]; intros [|n]; simpl; try lia.
  specialize (IH n); lia.
Qed.

Lemma substring_0_length (n : nat) (s : string) :
  (n <= String.length s)%nat -> String.length (substring 0 n s) = n.
Proof.
  revert n; induction s as [|c s IH]; intros [|n]; simpl; intros H; try lia.
  rewrite IH; lia.
Qed.

Lemma substring_0_all (s : string) : substring 0 (String.length s) s = s.
Proof. induction s as [|c s IH]; simpl; [reflexivity | now rewrite IH]. Qed.

Lemma substring_0_app (n : nat) (a b : string) :
  (String.length a <= n)%nat ->
  substring 0 n (a +:+ b) = a +:+ substring 0 (n - String.length a) b.
Proof.
  revert n; induction a as [|c a IH]; simpl; intros n H.
  - now rewrite Nat.sub_0_r.
  - destruct n as [|n]; [lia|]. simpl. rewrite IH by lia. reflexivity.
Qed.

Lemma substring_0_split (n : nat) (s : string) :
  s = substring 0 n s +:+ substring n (String.length s - n) s.
Proof.
  revert n; induction s as [|c s IH]; intros [|n]; simpl; try reflexivity.
  - now rewrite substring_0_all.
  - change (String c s
            = String c (substring 0 n s +:+ substring n (String.length s - n) s)).
    f_equal. apply IH.
Qed.

Lemma substring_skip (p rest : string) (m : nat) :
  substring (String.length p) m (p +:+ rest) = substring 0 m rest.
Proof. induction p as [|c p IH]; simpl; [reflexivity | exact IH]. Qed.

Lemma startsWith_app (p rest : string) : startsWith (p +:+ rest) p = true.
Proof.
  unfold startsWith. induction p as [|c p IH]; simpl.
  - now destruct rest.
  - destruct (ascii_dec c c); [exact IH | congruence].
Qed.

Lemma startsWith_inv (s p : string) :
  startsWith s p = true -> exists rest, s = p +:+ rest.
Proof.
  unfold startsWith. revert s; induction p as [|c p IH]; intros s H.
  - now exists s.
  - destruct s as [|d s]; simpl in H; [discriminate|].
    destruct (ascii_dec c d) as [->|]; [|discriminate].
    destruct (IH _ H) as [rest ->]. now exists rest.
Qed.

Lemma slice_app (p rest : string) : slice (String.length p) (p +:+ rest) = rest.
Proof.
  unfold slice. rewrite substring_skip, length_app_string.
  replace (String.length p + String.length rest - String.length p)%nat
    with (String.length rest) by lia.
  apply substring_0_all.
Qed.

Lemma js_substring_0 (n : nat) (s : string) : js_substring 0 n s = substring 0 n s.
Proof. unfold js_substring. now rewrite Nat.min_0_l, Nat.max_0_l, Nat.sub_0_r. Qed.

Lemma nonempty_false (s : string) : nonempty s = false <-> s = EmptyString.
Proof. destruct s; simpl; split; congruence. Qed.

End StringFacts.

(** ** The retry loop *)

Section RetryLoop.

Variables (env : Env) (url : string) (payload : Payload).

Lemma attempts_made_app (t1 t2 : list event) :
  attempts_made (t1 ++ t2) = (attempts_made t1 + attempts_made t2)%nat.
Proof. unfold attempts_made. now rewrite List.filter_app, length_app. Qed.

Lemma waits_made_app (t1 t2 : list event) :
  waits_made (t1 ++ t2) = (waits_made t1 + waits_made t2)%nat.
Proof. unfold waits_made. now rewrite List.filter_app, length_app. Qed.

Lemma attempts_made_retries (from count : nat) :
  attempts_made (retries env url payload from count) = count.
Proof.
  revert from; induction count as [|count IH]; intros from; [reflexivity|].
  cbn [retries]. rewrite attempts_made_app, IH. reflexivity.
Qed.

Lemma waits_made_retries (from count : nat) :
  waits_made (retries env url payload from count) = count.
Proof.
  revert from; induction count as [|count IH]; intros from; [reflexivity|].
  cbn [retries]. rewrite waits_made_app, IH. reflexivity.
Qed.

Lemma status_429_not_ok (response : Response) :
  status response = 429%Z -> ok response = false.
Proof. unfold ok. intros ->. reflexivity. Qed.

(** One 429 with attempts to spare: log, wait, go round again. *)
Lemma attempt_loop_retry (remaining attempt : nat) response errorBody :
  fetch env attempt = Returns response ->
  status response = 429%Z ->
  body_text response = Returns errorBody ->
  (attempt < MAX_RETRIES - 1)%nat ->
  attempt_loop env url payload (S remaining) attempt =
    (fst (attempt_loop env url payload remaining (S attempt)),
     retries env url payload attempt 1
       ++ snd (attempt_loop env url payload remaining (S attempt))).
Proof.
  intros Hfetch Hstatus Hbody Hspare. cbn [attempt_loop retries].
  rewrite Hfetch, (status_429_not_ok _ Hstatus), Hbody, Hstatus.
  apply Nat.ltb_lt in Hspare. rewrite Hspare. cbn [negb andb Z.eqb Pos.eqb].
  destruct (attempt_loop env url payload remaining (S attempt)) as [value later].
  cbn [fst snd]. now rewrite app_nil_r.
Qed.

(** A run of 429 answers in front of attempt [from + count]. *)
Lemma attempt_loop_skip (count remaining from : nat) :
  (forall i, (from <= i < from + count)%nat ->
     exists response errorBody,
       fetch env i = Returns response /\ status response = 429%Z /\
       body_text response = Returns errorBody) ->
  (from + count <= MAX_RETRIES - 1)%nat ->
  attempt_loop env url payload (count + remaining) from =
    (fst (attempt_loop env url payload remaining (from + count)),
     retries env url payload from count
       ++ snd (attempt_loop env url payload remaining (from + count))).
Proof.
  revert from; induction count as [|count IH]; intros from Hrun Hroom.
  - rewrite Nat.add_0_r. cbn [Nat.add retries app].
    now destruct (attempt_loop env url payload remaining from).
  - destruct (Hrun from ltac:(lia)) as (response & errorBody & Hf & Hs & Hb).
    cbn [Nat.add].
    rewrite (attempt_loop_retry _ _ _ _ Hf Hs Hb) by lia.
    rewrite IH; [|intros i Hi; apply Hrun; lia | lia].
    cbn [fst snd]. replace (S from + count)%nat with (from + S count)%nat by lia.
    f_equal; cbn [retries]; now rewrite <- ?app_assoc.
Qed.

(** An attempt whose [try] block throws ends the call in the [catch]. *)
Lemma attempt_loop_throws (remaining attempt : nat) message :
  attempt_throws (fetch env attempt) message ->
  attempt_loop env url payload (S remaining) attempt =
    caught attempt message [Fetch url payload].
Proof.
  intros Hthrow. cbn [attempt_loop].
  destruct Hthrow as [m | response m Hok Hbody | response m Hok Hbody].
  - reflexivity.
  - now rewrite Hok, Hbody.
  - now rewrite Hok, Hbody.
Qed.

(** A failing status that is not retried ends the call in the [catch]. *)
Lemma attempt_loop_fails (remaining attempt : nat) response errorBody :
  fetch env attempt = Returns response ->
  ok response = false ->
  body_text response = Returns errorBody ->
  status response <> 429%Z \/ (MAX_RETRIES - 1 <= attempt)%nat ->
  attempt_loop env url payload (S remaining) attempt =
    caught attempt (request_failed_message response errorBody) [Fetch url payload].
Proof.
  intros Hf Hok Hbody Hterminal. cbn [attempt_loop].
  rewrite Hf, Hok, Hbody. cbn [negb].
  destruct Hterminal as [Hstatus | Hlast].
  - apply Z.eqb_neq in Hstatus. now rewrite Hstatus.
  - apply Nat.ltb_ge in Hlast. rewrite Hlast. now rewrite andb_false_r.
Qed.

(** A successful status: the text, or the placeholder. *)
Lemma attempt_loop_ok (remaining attempt : nat) response result text :
  fetch env attempt = Returns response ->
  ok response = true ->
  body_json response = Returns result ->
  extract_text result = Returns text ->
  attempt_loop env url payload (S remaining) attempt =
    match text with
    | Some value =>
        if truthy text then (value, [Fetch url payload])
        else no_comment result [Fetch url payload]
    | None => no_comment result [Fetch url payload]
    end.
Proof.
  intros Hf Hok Hjson Htext. cbn [attempt_loop].
  rewrite Hf, Hok, Hjson, Htext. cbn [negb]. now destruct text.
Qed.

End RetryLoop.

Lemma getResponse_with_key (env : Env) (key userMessage : string) (history : list Turn) :
  GEMINI_API_KEY env = Some key ->
  key <> EmptyString ->
  getResponse env userMessage history =
    attempt_loop env (apiURL key)
      {| contents := history ++ [mkTurn user (JStr userMessage)];
         systemInstruction := SYSTEM_PROMPT |} MAX_RETRIES 0.
Proof.
  intros Hkey Hne. unfold getResponse. rewrite Hkey.
  destruct key; [congruence | reflexivity].
Qed.

Lemma rate_limited_before_range (env : Env) (k : nat) :
  rate_limited_before env k ->
  forall i, (0 <= i < 0 + k)%nat ->
    exists response errorBody,
      fetch env i = Returns response /\ status response = 429%Z /\
      body_text response = Returns errorBody.
Proof. intros H i Hi. apply H. lia. Qed.

(** The call up to attempt [k], when every earlier attempt was answered 429. *)
Lemma getResponse_reaches (env : Env) (key userMessage : string) (history : list Turn)
    (k : nat) :
  GEMINI_API_KEY env = Some key ->
  key <> EmptyString ->
  (k < MAX_RETRIES)%nat ->
  rate_limited_before env k ->
  let payload :=
    {| contents := history ++ [mkTurn user (JStr userMessage)];
       systemInstruction := SYSTEM_PROMPT |} in
  let rest := attempt_loop env (apiURL key) payload (S (MAX_RETRIES - 1 - k)) k in
  getResponse env userMessage history =
    (fst rest, retries env (apiURL key) payload 0 k ++ snd rest).
Proof.
  intros Hkey Hne Hk Hrun payload rest.
  rewrite (getResponse_with_key _ _ _ _ Hkey Hne).
  replace MAX_RETRIES with (k + S (MAX_RETRIES - 1 - k))%nat at 1 by lia.
  rewrite attempt_loop_skip with (from := 0%nat);
    [reflexivity | now apply rate_limited_before_range | lia].
Qed.

Lemma attempts_made_reached (env : Env) (url : string) (payload : Payload)
    (k : nat) (last : list event) :
  attempts_made (retries env url payload 0 k ++ last) = (k + attempts_made last)%nat.
Proof. now rewrite attempts_made_app, attempts_made_retries. Qed.

Lemma waits_made_reached (env : Env) (url : string) (payload : Payload)
    (k : nat) (last : list event) :
  waits_made (retries env url payload 0 k ++ last) = (k + waits_made last)%nat.
Proof. now rewrite waits_made_app, waits_made_retries. Qed.

(** ** Reading the text of a body *)

Lemma opt_chain_member (access : JSON -> jsval) (v : jsval) :
  access JNull = None -> opt_chain access v = member access v.
Proof. intros Hnull. destruct v as [[]|]; simpl; congruence. Qed.

(** On every body but [null] the code reads the text field of the
    description. *)
Lemma extract_text_text_field (result : JSON) :
  result <> JNull -> extract_text result = Returns (text_field result).
Proof.
  intros Hnot. unfold text_field.
  destruct result; try congruence; cbn [extract_text];
    now rewrite !opt_chain_member by reflexivity.
Qed.

Lemma text_field_null : text_field JNull = None.
Proof. reflexivity. Qed.

(** ** Decimal renderings of a status *)

Lemma status_three_digits (z : Z) :
  (100 <= z <= 999)%Z -> String.length (of_Z z) = 3%nat.
Proof.
  intros Hz.
  assert (Hall : forallb three_digits (seq 0 900) = true) by (vm_compute; reflexivity).
  rewrite forallb_forall in Hall.
  specialize (Hall (Z.to_nat z - 100)%nat).
  unfold three_digits in Hall.
  replace (Z.of_nat (100 + (Z.to_nat z - 100))) with z in Hall by lia.
  apply Nat.eqb_eq, Hall, in_seq. lia.
Qed.

(** ** The completion call *)

(** C5. Without the credential the call returns the missing-key message at
    once: the trace holds the log line only, hence no network call, whatever
    the user text, the history and the transport. *)
Theorem C5_missing_credential_short_circuits
    (env : Env) (userMessage : string) (history : list Turn) :
  GEMINI_API_KEY env = None ->
  getResponse env userMessage history = (JStr "ERROR: API key missing", [LogMissingKey])
  /\ attempts_made (snd (getResponse env userMessage history)) = 0%nat.
Proof.
  intros Hkey. unfold getResponse. rewrite Hkey. split; reflexivity.
Qed.

Lemma C5_missing_credential_witness :
  getResponse Sample.no_key "hello" [] = (JStr "ERROR: API key missing", [LogMissingKey])
  /\ attempts_made (snd (getResponse Sample.no_key "hello" [])) = 0%nat.
Proof.
  apply (C5_missing_credential_short_circuits Sample.no_key "hello" []).
  reflexivity.
Defined.

(** An empty credential is as good as none. *)
Lemma empty_credential_short_circuits
    (env : Env) (userMessage : string) (history : list Turn) :
  GEMINI_API_KEY env = Some EmptyString ->
  getResponse env userMessage history = (JStr "ERROR: API key missing", [LogMissingKey]).
Proof. intros Hkey. unfold getResponse. now rewrite Hkey. Qed.

(** C1. With a transport that answers 429 on every call the code makes
    exactly three network calls and two waits, as claimed, but the third 429
    is thrown into the [catch]: the call returns the request-failed message
    with status 429, and not the exhausted-retries message. *)
Theorem C1_always_429_ends_in_catch
    (c : ascii) (key errorBody userMessage : string) (history : list Turn)
    (parsed : completion JSON) (random : nat -> Q)
    (typing : completion unit) (delivery : string -> completion unit) :
  let env :=
    mkEnv (Some (String c key))
      (fun _ => Returns (mkResponse 429 (Returns errorBody) parsed))
      random typing delivery in
  let outcome := getResponse env userMessage history in
  fst outcome =
    JStr ("Error: "
          +:+ js_substring 0 80 ("API Request failed with status 429 : " +:+ errorBody)
          +:+ ", Ceasing.")
  /\ fst outcome <> JStr "All retries failed."
  /\ attempts_made (snd outcome) = 3%nat
  /\ waits_made (snd outcome) = 2%nat.
Proof.
  intros env outcome.
  assert (Hrun : rate_limited_before env 2).
  { intros i _. now exists (mkResponse 429 (Returns errorBody) parsed), errorBody. }
  assert (Hout : outcome = getResponse env userMessage history) by reflexivity.
  rewrite (getResponse_reaches env (String c key) userMessage history 2
             eq_refl ltac:(congruence) ltac:(unfold MAX_RETRIES; lia) Hrun) in Hout.
  cbn zeta in Hout.
  rewrite (attempt_loop_fails env _ _ _ 2 (mkResponse 429 (Returns errorBody) parsed)
             errorBody eq_refl eq_refl eq_refl) in Hout
    by (right; unfold MAX_RETRIES; lia).
  rewrite Hout. cbn [fst snd caught].
  rewrite attempts_made_reached, waits_made_reached.
  repeat split; try reflexivity.
  intros Habs. inversion Habs.
Qed.

Example always_429_evaluated :
  fst (getResponse Sample.always_429 "hi" []) =
    JStr "Error: API Request failed with status 429 : quota exceeded, Ceasing.".
Proof. reflexivity. Qed.

(** C3. Two 429 answers followed by a successful answer whose body carries
    a non-empty text: the call returns that text, after exactly three network
    calls and two waits; the waits are the delays of attempts 0 and 1. *)
Theorem C3_third_attempt_succeeds
    (env : Env) (key userMessage : string) (history : list Turn)
    (response : Response) (result : JSON) (t : string) :
  GEMINI_API_KEY env = Some key ->
  key <> EmptyString ->
  rate_limited_before env 2 ->
  fetch env 2 = Returns response ->
  ok response = true ->
  body_json response = Returns result ->
  text_field result = Some (JStr t) ->
  t <> EmptyString ->
  let payload :=
    {| contents := history ++ [mkTurn user (JStr userMessage)];
       systemInstruction := SYSTEM_PROMPT |} in
  let outcome := getResponse env userMessage history in
  fst outcome = JStr t
  /\ attempts_made (snd outcome) = 3%nat
  /\ waits_made (snd outcome) = 2%nat
  /\ snd outcome =
       [Fetch (apiURL key) payload;
        LogRateLimit (Math_round (delay 0 (Math_random env 0) / 1000)%Q);
        Sleep (delay 0 (Math_random env 0));
        Fetch (apiURL key) payload;
        LogRateLimit (Math_round (delay 1 (Math_random env 1) / 1000)%Q);
        Sleep (delay 1 (Math_random env 1));
        Fetch (apiURL key) payload].
Proof.
  intros Hkey Hne Hrun Hfetch Hok Hjson Htext Ht payload outcome.
  assert (Hnot : result <> JNull) by (intros ->; discriminate).
  subst outcome.
  rewrite (getResponse_reaches env key userMessage history 2 Hkey Hne
             ltac:(unfold MAX_RETRIES; lia) Hrun).
  cbn zeta.
  rewrite (attempt_loop_ok env _ _ _ 2 response result _ Hfetch Hok Hjson
             (extract_text_text_field result Hnot)).
  rewrite Htext. cbn [truthy].
  destruct t as [|a t]; [congruence|]. cbn [nonempty fst snd].
  rewrite attempts_made_reached, waits_made_reached.
  repeat split; reflexivity.
Qed.

Lemma C3_third_attempt_witness :
  fst (getResponse Sample.third_time_lucky "hi" []) = JStr "Roger Roger"
  /\ attempts_made (snd (getResponse Sample.third_time_lucky "hi" [])) = 3%nat
  /\ waits_made (snd (getResponse Sample.third_time_lucky "hi" [])) = 2%nat.
Proof.
  destruct (C3_third_attempt_succeeds Sample.third_time_lucky "k3y" "hi" []
              (Sample.response_of 200 "" (Returns (Sample.answer "Roger Roger")))
              (Sample.answer "Roger Roger") "Roger Roger")
    as (Hvalue & Hcalls & Hwaits & _).
  - reflexivity.
  - discriminate.
  - intros i Hi. exists Sample.rate_limited, "quota exceeded".
    destruct i as [|[|i]]; [now repeat split | now repeat split | lia].
  - reflexivity.
  - reflexivity.
  - reflexivity.
  - reflexivity.
  - discriminate.
  - split; [exact Hvalue | split; [exact Hcalls | exact Hwaits]].
Defined.

(** C6, as the code has it. A successful answer whose body is any JSON value
    but [null], and which lacks the text field or has it empty, makes the
    call return the placeholder; nothing is thrown and no further network
    call is made. *)
Theorem C6_body_without_text_gives_placeholder
    (env : Env) (key userMessage : string) (history : list Turn)
    (k : nat) (response : Response) (result : JSON) :
  GEMINI_API_KEY env = Some key ->
  key <> EmptyString ->
  (k < MAX_RETRIES)%nat ->
  rate_limited_before env k ->
  fetch env k = Returns response ->
  ok response = true ->
  body_json response = Returns result ->
  result <> JNull ->
  lacks_text result ->
  fst (getResponse env userMessage history) = JStr "No comment."
  /\ attempts_made (snd (getResponse env userMessage history)) = (k + 1)%nat.
Proof.
  intros Hkey Hne Hk Hrun Hfetch Hok Hjson Hnot Hlacks.
  rewrite (getResponse_reaches env key userMessage history k Hkey Hne Hk Hrun).
  cbn zeta.
  rewrite (attempt_loop_ok env _ _ _ k response result _ Hfetch Hok Hjson
             (extract_text_text_field result Hnot)).
  cbn [fst snd]. rewrite attempts_made_reached.
  destruct Hlacks as [-> | ->]; cbn [truthy nonempty no_comment fst snd];
    now rewrite attempts_made_app.
Qed.

Lemma C6_body_without_text_witness :
  fst (getResponse Sample.declined "hi" []) = JStr "No comment."
  /\ attempts_made (snd (getResponse Sample.declined "hi" [])) = 1%nat.
Proof.
  apply (C6_body_without_text_gives_placeholder Sample.declined "k3y" "hi" [] 0
           (Sample.response_of 200 "" (Returns (JObj []))) (JObj [])).
  - reflexivity.
  - discriminate.
  - unfold MAX_RETRIES; lia.
  - intros i Hi; lia.
  - reflexivity.
  - reflexivity.
  - reflexivity.
  - discriminate.
  - left; reflexivity.
Defined.

(** C6, as stated, fails on the body [null]: it is a JSON body, it has no
    text field, the status is 200, and the call returns the message of the
    [catch] block instead of the placeholder. *)
Lemma C6_null_body_counterexample :
  lacks_text JNull
  /\ fetch Sample.null_body 0 = Returns (Sample.response_of 200 "" (Returns JNull))
  /\ ok (Sample.response_of 200 "" (Returns JNull)) = true
  /\ fst (getResponse Sample.null_body "hi" []) =
       JStr "Error: Cannot read properties of null (reading 'candidates'), Ceasing."
  /\ fst (getResponse Sample.null_body "hi" []) <> JStr "No comment.".
Proof.
  repeat split; try reflexivity.
  - left; reflexivity.
  - intros Habs; inversion Habs.
Qed.

(** What the [catch] block makes of a request-failed message when the status
    has three digits: the status in full and the first 43 code units of the
    error body. *)
Lemma request_failed_excerpt (response : Response) (errorBody : string) :
  (100 <= status response <= 999)%Z ->
  js_substring 0 80 (request_failed_message response errorBody) =
    "API Request failed with status " +:+ of_Z (status response) +:+ " : "
    +:+ js_substring 0 43 errorBody.
Proof.
  intros Hstatus. pose proof (status_three_digits _ Hstatus) as Hlen.
  unfold request_failed_message. rewrite !js_substring_0.
  rewrite substring_0_app by (vm_compute; lia). f_equal.
  rewrite substring_0_app by (rewrite Hlen; vm_compute; lia). f_equal.
  rewrite substring_0_app by (rewrite Hlen; vm_compute; lia). f_equal.
  rewrite Hlen. reflexivity.
Qed.

(** C7. At whatever attempt it comes, (1) a failing status other than 429
    ends the call there: the result is the message of the [catch] block
    around the first 80 code units of the request-failed text, which for a
    three-digit status holds the status and the first 43 code units of the
    error body, and no further network call is made; (2) an exception thrown
    by the transport ends the call there as well, with an excerpt of at most
    80 code units of its message. *)
Theorem C7_failures_are_terminal :
  (forall (env : Env) (key userMessage : string) (history : list Turn)
          (k : nat) (response : Response) (errorBody : string),
     GEMINI_API_KEY env = Some key ->
     key <> EmptyString ->
     (k < MAX_RETRIES)%nat ->
     rate_limited_before env k ->
     fetch env k = Returns response ->
     ok response = false ->
     status response <> 429%Z ->
     body_text response = Returns errorBody ->
     let outcome := getResponse env userMessage history in
     fst outcome =
       JStr ("Error: "
             +:+ js_substring 0 80 (request_failed_message response errorBody)
             +:+ ", Ceasing.")
     /\ ((100 <= status response <= 999)%Z ->
         fst outcome =
           JStr ("Error: API Request failed with status "
                 +:+ of_Z (status response) +:+ " : "
                 +:+ js_substring 0 43 errorBody +:+ ", Ceasing."))
     /\ attempts_made (snd outcome) = (k + 1)%nat
     /\ waits_made (snd outcome) = k)
  /\
  (forall (env : Env) (key userMessage : string) (history : list Turn)
          (k : nat) (message : string),
     GEMINI_API_KEY env = Some key ->
     key <> EmptyString ->
     (k < MAX_RETRIES)%nat ->
     rate_limited_before env k ->
     attempt_throws (fetch env k) message ->
     let outcome := getResponse env userMessage history in
     fst outcome = JStr ("Error: " +:+ js_substring 0 80 message +:+ ", Ceasing.")
     /\ (String.length (js_substring 0 80 message) <= 80)%nat
     /\ attempts_made (snd outcome) = (k + 1)%nat
     /\ waits_made (snd outcome) = k).
Proof.
  split.
  - intros env key userMessage history k response errorBody
      Hkey Hne Hk Hrun Hfetch Hok Hstatus Hbody outcome.
    subst outcome.
    rewrite (getResponse_reaches env key userMessage history k Hkey Hne Hk Hrun).
    cbn zeta.
    rewrite (attempt_loop_fails env _ _ _ k response errorBody Hfetch Hok Hbody)
      by now left.
    cbn [fst snd caught]. rewrite attempts_made_reached, waits_made_reached.
    repeat split; try (cbn; lia).
    intros Hdigits. rewrite (request_failed_excerpt _ _ Hdigits).
    f_equal. rewrite !app_string_assoc. reflexivity.
  - intros env key userMessage history k message Hkey Hne Hk Hrun Hthrow outcome.
    subst outcome.
    rewrite (getResponse_reaches env key userMessage history k Hkey Hne Hk Hrun).
    cbn zeta. rewrite (attempt_loop_throws env _ _ _ k message Hthrow).
    cbn [fst snd caught]. rewrite attempts_made_reached, waits_made_reached.
    repeat split; try (cbn; lia).
    rewrite js_substring_0. apply substring_0_length_le.
Qed.

Lemma C7_failures_witness :
  fst (getResponse Sample.server_error "hi" []) =
    JStr "Error: API Request failed with status 500 : backend unavailable, Ceasing."
  /\ attempts_made (snd (getResponse Sample.server_error "hi" [])) = 2%nat
  /\ fst (getResponse Sample.network_down "hi" []) = JStr "Error: fetch failed, Ceasing."
  /\ attempts_made (snd (getResponse Sample.network_down "hi" [])) = 2%nat.
Proof.
  destruct C7_failures_are_terminal as [Hstatus Hthrow].
  destruct (Hstatus Sample.server_error "k3y" "hi" [] 1%nat
              (Sample.response_of 500 "backend unavailable" (Throws "no JSON"))
              "backend unavailable")
    as (_ & Hvalue & Hcalls & _).
  - reflexivity.
  - discriminate.
  - unfold MAX_RETRIES; lia.
  - intros i Hi. exists Sample.rate_limited, "quota exceeded".
    destruct i as [|i]; [now repeat split | lia].
  - reflexivity.
  - reflexivity.
  - discriminate.
  - reflexivity.
  - destruct (Hthrow Sample.network_down "k3y" "hi" [] 1%nat "fetch failed")
      as (Hvalue' & _ & Hcalls' & _).
    + reflexivity.
    + discriminate.
    + unfold MAX_RETRIES; lia.
    + intros i Hi. exists Sample.rate_limited, "quota exceeded".
      destruct i as [|i]; [now repeat split | lia].
    + apply fetch_rejects.
    + split; [apply Hvalue; cbn; lia |].
      split; [exact Hcalls |].
      split; [exact Hvalue' | exact Hcalls'].
Defined.

(** ** The rolling history *)

Section History.

Lemma array_slice_drop {A : Type} (n : nat) (items : list A) :
  (n <= length items)%nat -> array_slice (Z.of_nat n) items = drop n items.
Proof.
  intros Hn. unfold array_slice.
  destruct (Z.ltb_spec (Z.of_nat n) 0) as [Hneg | _]; [lia|].
  f_equal. lia.
Qed.

(** The stored sequence is the appended one without its first
    [length - 10] entries, or all of it when it fits. *)
Lemma updateHistory_drop (cur : list Turn) (userPrompt : string) (responseText : JSON) :
  let appended := cur ++ [mkTurn user (JStr userPrompt); mkTurn model responseText] in
  updateHistory cur userPrompt responseText =
    drop (length appended - 2 * MAX_HISTORY_TURNS) appended.
Proof.
  intros appended. unfold updateHistory. fold appended.
  replace (MAX_HISTORY_TURNS * 2)%nat with (2 * MAX_HISTORY_TURNS)%nat by reflexivity.
  destruct (Nat.ltb_spec (2 * MAX_HISTORY_TURNS) (length appended)) as [Hover | Hfits].
  - rewrite <- Nat2Z.inj_sub by lia. apply array_slice_drop. lia.
  - replace (length appended - 2 * MAX_HISTORY_TURNS)%nat with 0%nat by lia.
    reflexivity.
Qed.

Lemma updateHistory_length (cur : list Turn) (userPrompt : string) (responseText : JSON) :
  length (updateHistory cur userPrompt responseText) =
    Nat.min (length cur + 2) (2 * MAX_HISTORY_TURNS).
Proof.
  rewrite updateHistory_drop. cbn zeta. rewrite length_drop, length_app.
  cbn [length]. lia.
Qed.

(** What a run of the handler can do to the map: nothing, or one [set] of
    the channel's key to an updated history. *)
Lemma handler_store (env : Env) (st : gmap string (list Turn)) (message : Message) :
  fst (handler env st message) = st
  \/ exists userPrompt responseText,
       fst (handler env st message) =
         <[channelId message :=
             updateHistory (history_of st (channelId message)) userPrompt responseText]> st.
Proof.
  unfold handler.
  destruct (author_bot message); [now left|].
  destruct (startsWith (content message) BOT_PREFIX); [|now left].
  destruct (negb (nonempty (userPrompt_of (content message)))); [now left|].
  destruct (sendTyping env); [|now left].
  destruct (getResponse env (userPrompt_of (content message))
              (default [] (st !! channelId message))) as [responseText calls].
  right. now exists (userPrompt_of (content message)), responseText.
Qed.

Lemma bounded_empty : bounded ∅.
Proof. intros key. unfold history_of. rewrite lookup_empty. cbn. lia. Qed.

Lemma bounded_handler (env : Env) (st : gmap string (list Turn)) (message : Message) :
  bounded st -> bounded (fst (handler env st message)).
Proof.
  intros Hst. destruct (handler_store env st message) as [-> | (u & r & ->)]; [exact Hst|].
  intros key. unfold history_of.
  destruct (decide (channelId message = key)) as [-> | Hother].
  - rewrite lookup_insert_eq. cbn -[updateHistory MAX_HISTORY_TURNS Nat.mul].
    rewrite updateHistory_length. lia.
  - rewrite lookup_insert_ne by exact Hother. apply Hst.
Qed.

Lemma bounded_run (calls : list (Env * Message)) (st : gmap string (list Turn)) :
  bounded st -> bounded (run calls st).
Proof.
  revert st; induction calls as [|[env message] calls IH]; intros st Hst; [exact Hst|].
  cbn [run]. apply IH, bounded_handler, Hst.
Qed.

End History.

Example six_calls_keep_the_last_five_pairs :
  map text (history_of (run Sample.six_calls ∅) "general") =
    [JStr "two"; JStr "ERROR: API key missing";
     JStr "three"; JStr "ERROR: API key missing";
     JStr "four"; JStr "ERROR: API key missing";
     JStr "five"; JStr "ERROR: API key missing";
     JStr "six"; JStr "ERROR: API key missing"].
Proof. vm_compute. reflexivity. Qed.

(** C2. (1) Whatever messages arrive and however often, for every key the
    stored history holds at most [2 * MAX_HISTORY_TURNS] = 10 turns. (2) The
    handler changes the map only by setting the channel's key to the updated
    history. (3) The updated history is the old one followed by the new
    user/model pair, cut at the front: it has the length of the appended
    sequence capped at 10, and the appended sequence is some dropped oldest
    turns followed by it, so order is kept and only the oldest turns go. *)
Theorem C2_history_bounded_fifo :
  (forall (calls : list (Env * Message)) (key : string),
     (length (history_of (run calls ∅) key) <= 2 * MAX_HISTORY_TURNS)%nat)
  /\ 2 * MAX_HISTORY_TURNS = 10
  /\ (forall (env : Env) (st : gmap string (list Turn)) (message : Message),
        fst (handler env st message) = st
        \/ exists userPrompt responseText,
             fst (handler env st message) =
               <[channelId message :=
                   updateHistory (history_of st (channelId message))
                     userPrompt responseText]> st)
  /\ (forall (cur : list Turn) (userPrompt : string) (responseText : JSON),
        let appended :=
          cur ++ [mkTurn user (JStr userPrompt); mkTurn model responseText] in
        let kept := updateHistory cur userPrompt responseText in
        (length kept <= 2 * MAX_HISTORY_TURNS)%nat
        /\ length kept = Nat.min (length appended) (2 * MAX_HISTORY_TURNS)
        /\ exists dropped,
             appended = dropped ++ kept
             /\ length dropped = (length appended - 2 * MAX_HISTORY_TURNS)%nat).
Proof.
  split; [intros calls key; apply bounded_run, bounded_empty|].
  split; [reflexivity|].
  split; [apply handler_store|].
  intros cur userPrompt responseText appended kept.
  assert (Hlen : length kept = Nat.min (length appended) (2 * MAX_HISTORY_TURNS)).
  { subst kept appended. rewrite updateHistory_length, length_app. reflexivity. }
  split; [lia|]. split; [exact Hlen|].
  exists (take (length appended - 2 * MAX_HISTORY_TURNS) appended).
  subst kept. rewrite updateHistory_drop. cbn zeta. fold appended.
  split; [now rewrite take_drop|].
  rewrite length_take. lia.
Qed.

(** ** The reply *)

(** C8. A reply text of more than 2000 code units is handed over as its
    first 1980 code units followed by the suffix of 10 code units, 1990 in
    all and so at most 2000; a text of at most 2000 code units is handed over
    unchanged; and the handler replies with the formatted text. *)
Theorem C8_long_reply_is_cut (responseText : string) :
  ((2000 < String.length responseText)%nat ->
     formatReply responseText = js_substring 0 1980 responseText +:+ " yada yada"
     /\ String.length (js_substring 0 1980 responseText) = 1980%nat
     /\ (exists rest, responseText = js_substring 0 1980 responseText +:+ rest)
     /\ String.length (formatReply responseText) = 1990%nat
     /\ (String.length (formatReply responseText) <= 2000)%nat)
  /\ ((String.length responseText <= 2000)%nat -> formatReply responseText = responseText)
  /\ (forall env : Env,
        reply env (formatReply responseText) = Returns tt ->
        deliver env (JStr responseText) = [Reply (formatReply responseText)]).
Proof.
  unfold formatReply. split; [|split].
  - intros Hlong. apply Nat.ltb_lt in Hlong as Hif. rewrite Hif.
    rewrite js_substring_0.
    assert (Hcut : String.length (substring 0 1980 responseText) = 1980%nat)
      by (apply substring_0_length; lia).
    split; [reflexivity|]. split; [exact Hcut|].
    split; [eexists; apply substring_0_split|].
    rewrite length_app_string, Hcut.
    change (String.length " yada yada") with 10%nat. lia.
  - intros Hshort. apply Nat.ltb_ge in Hshort. now rewrite Hshort.
  - intros env Hsent. unfold deliver, formatReply. now rewrite Hsent.
Qed.

Lemma C8_long_reply_witness :
  String.length Sample.long_reply = 2500%nat
  /\ String.length (formatReply Sample.long_reply) = 1990%nat.
Proof.
  assert (Hlen : String.length Sample.long_reply = 2500%nat) by (vm_compute; reflexivity).
  split; [exact Hlen|].
  apply (proj1 (C8_long_reply_is_cut Sample.long_reply)).
  rewrite Hlen. lia.
Defined.

(** ** The backoff delay *)

Section Backoff.

Local Open Scope Q_scope.

Lemma power_of_two_ge_1 (attempt : nat) : 1 <= inject_Z (2 ^ Z.of_nat attempt).
Proof.
  change 1 with (inject_Z 1). rewrite <- Zle_Qle.
  pose proof (Z.pow_pos_nonneg 2 (Z.of_nat attempt)). lia.
Qed.

Lemma power_of_two_succ (attempt : nat) :
  inject_Z (2 ^ Z.of_nat (S attempt)) == 2 * inject_Z (2 ^ Z.of_nat attempt).
Proof.
  rewrite Nat2Z.inj_succ, Z.pow_succ_r by lia. now rewrite inject_Z_mult.
Qed.

(** The next attempt waits a full [2^attempt] seconds longer on the same
    draw. *)
Lemma delay_succ (attempt : nat) (random : Q) :
  delay (S attempt) random ==
    delay attempt random + inject_Z (2 ^ Z.of_nat attempt) * 1000.
Proof. unfold delay. rewrite power_of_two_succ. ring. Qed.

Lemma delay_le_succ (attempt : nat) (random : Q) :
  delay attempt random <= delay (S attempt) random.
Proof.
  rewrite delay_succ. pose proof (power_of_two_ge_1 attempt). lra.
Qed.

Lemma Qsum_le (f g : Q * Q -> Q) (distribution : list (Q * Q)) :
  (forall wr, In wr distribution -> f wr <= g wr) ->
  Qsum (map f distribution) <= Qsum (map g distribution).
Proof.
  induction distribution as [|wr distribution IH]; intros Hle; cbn.
  - lra.
  - specialize (Hle wr (or_introl eq_refl)) as Hhead.
    assert (Htail : Qsum (map f distribution) <= Qsum (map g distribution))
      by (apply IH; intros x Hx; apply Hle; now right).
    unfold Qsum in *. lra.
Qed.

End Backoff.

(** Every wait of the loop is the delay of an attempt that has a retry left. *)
Lemma sleeps_are_delays (env : Env) (url : string) (payload : Payload)
    (remaining attempt : nat) (d : Q) :
  In (Sleep d) (snd (attempt_loop env url payload remaining attempt)) ->
  exists k, (attempt <= k < MAX_RETRIES - 1)%nat /\ d = delay k (Math_random env k).
Proof.
  revert attempt; induction remaining as [|remaining IH]; intros attempt; [intros []|].
  cbn [attempt_loop].
  destruct (fetch env attempt) as [response|message];
    [|cbn; intuition discriminate].
  destruct (negb (ok response)).
  - destruct (body_text response) as [errorBody|message];
      [|cbn; intuition discriminate].
    destruct (status response =? 429)%Z; cbn [andb]; [|cbn; intuition discriminate].
    destruct (Nat.ltb_spec attempt (MAX_RETRIES - 1)) as [Hspare|_];
      [|cbn; intuition discriminate].
    specialize (IH (S attempt)).
    destruct (attempt_loop env url payload remaining (S attempt)) as [value later].
    cbn [snd app In] in *. intros [Habs | [Habs | [Hhere | Hlater]]];
      try discriminate.
    + exists attempt. split; [lia | congruence].
    + destruct (IH Hlater) as (k & Hk & ->). exists k. split; [lia | reflexivity].
  - destruct (body_json response) as [result|message];
      [|cbn; intuition discriminate].
    destruct (extract_text result) as [[value|]|message];
      try (cbn; intuition discriminate).
    destruct (truthy (Some value)); cbn; intuition discriminate.
Qed.

(** C4. With the draw of [Math.random] in the unit interval, the delay
    before the retry of attempt [n] is [2^n] seconds plus the draw in
    seconds (here in milliseconds); it lies between [2^n] and [2^n + 1]
    seconds; whatever the two draws, the delay of attempt [n + 1] is not
    below that of attempt [n]; and under any distribution of the draw with
    non-negative weights the expected delay does not decrease with [n]. *)
Theorem C4_backoff_bounds (attempt : nat) (random : Q) :
  (0 <= random)%Q ->
  (random < 1)%Q ->
  (delay attempt random == (inject_Z (2 ^ Z.of_nat attempt) + random) * 1000)%Q
  /\ (inject_Z (2 ^ Z.of_nat attempt) * 1000 <= delay attempt random)%Q
  /\ (delay attempt random <= (inject_Z (2 ^ Z.of_nat attempt) + 1) * 1000)%Q
  /\ (forall random' : Q,
        (0 <= random')%Q -> (random' < 1)%Q ->
        (delay attempt random <= delay (S attempt) random')%Q)
  /\ (forall distribution : list (Q * Q),
        (forall wr, In wr distribution -> (0 <= fst wr)%Q) ->
        (expected_delay distribution attempt
           <= expected_delay distribution (S attempt))%Q).
Proof.
  intros Hlow Hhigh.
  pose proof (power_of_two_ge_1 attempt) as Hpow.
  split; [unfold delay; ring|].
  split; [unfold delay; lra|].
  split; [unfold delay; lra|].
  split.
  - intros random' Hlow' Hhigh'. rewrite delay_succ. unfold delay. lra.
  - intros distribution Hweights. unfold expected_delay.
    apply Qsum_le. intros wr Hwr. cbn beta.
    rewrite !(Qmult_comm (fst wr)).
    apply Qmult_le_compat_r; [apply delay_le_succ | now apply Hweights].
Qed.

Lemma C4_backoff_witness :
  (1000 <= delay 0 (1 # 2))%Q
  /\ (delay 0 (1 # 2) <= 2000)%Q
  /\ (delay 0 (1 # 2) <= delay 1 0)%Q.
Proof.
  destruct (C4_backoff_bounds 0 (1 # 2)) as (_ & Hlow & Hhigh & Hnext & _).
  - vm_compute; discriminate.
  - reflexivity.
  - split; [exact Hlow|]. split; [exact Hhigh|].
    apply Hnext; [vm_compute; discriminate | reflexivity].
Defined.

(** * Further properties of the completion call *)

Section Exits.

Variables (env : Env) (url : string) (payload : Payload).

(** The loop, entered with iterations left, leaves through a [return] of its
    body after a run of retried 429 answers. *)
Lemma attempt_loop_exits (remaining attempt : nat) :
  (attempt + remaining = MAX_RETRIES)%nat ->
  (0 < remaining)%nat ->
  exists j value tail,
    (attempt + j < MAX_RETRIES)%nat
    /\ (forall i, (attempt <= i < attempt + j)%nat ->
          exists response errorBody,
            fetch env i = Returns response /\ status response = 429%Z /\
            body_text response = Returns errorBody)
    /\ loop_exit env (attempt + j) value tail
    /\ attempt_loop env url payload remaining attempt =
         (value, retries env url payload attempt j ++ Fetch url payload :: tail).
Proof.
  revert attempt; induction remaining as [|remaining IH]; intros attempt Hsum Hpos;
    [lia|].
  assert (Hstop : forall value tail,
            loop_exit env attempt value tail ->
            attempt_loop env url payload (S remaining) attempt
              = (value, Fetch url payload :: tail) ->
            exists j value tail,
              (attempt + j < MAX_RETRIES)%nat
              /\ (forall i, (attempt <= i < attempt + j)%nat ->
                    exists response errorBody,
                      fetch env i = Returns response /\ status response = 429%Z /\
                      body_text response = Returns errorBody)
              /\ loop_exit env (attempt + j) value tail
              /\ attempt_loop env url payload (S remaining) attempt =
                   (value, retries env url payload attempt j ++ Fetch url payload :: tail)).
  { intros value tail Hexit Heq. exists 0%nat, value, tail.
    rewrite Nat.add_0_r. repeat split; [lia | intros i Hi; lia | exact Hexit | exact Heq]. }
  destruct (fetch env attempt) as [response|message] eqn:Hfetch.
  2:{ eapply Hstop.
      - apply exit_caught, thrown_by_transport. rewrite Hfetch. apply fetch_rejects.
      - cbn [attempt_loop]. now rewrite Hfetch. }
  destruct (ok response) eqn:Hok.
  - destruct (body_json response) as [result|message] eqn:Hjson.
    2:{ eapply Hstop.
        - apply exit_caught, thrown_by_transport. rewrite Hfetch.
          apply json_rejects; eassumption.
        - cbn [attempt_loop]. now rewrite Hfetch, Hok, Hjson. }
    destruct (extract_text result) as [found|message] eqn:Htext.
    2:{ eapply Hstop.
        - eapply exit_caught, thrown_by_null_body; eassumption.
        - cbn [attempt_loop]. now rewrite Hfetch, Hok, Hjson, Htext. }
    destruct (truthy found) eqn:Htruthy.
    + destruct found as [value|]; [|discriminate].
      eapply Hstop.
      * eapply exit_text; eassumption.
      * cbn [attempt_loop]. now rewrite Hfetch, Hok, Hjson, Htext, Htruthy.
    + eapply Hstop.
      * eapply exit_no_text; eassumption.
      * cbn [attempt_loop]. rewrite Hfetch, Hok, Hjson, Htext.
        destruct found as [value|]; [now rewrite Htruthy | reflexivity].
  - destruct (body_text response) as [errorBody|message] eqn:Hbody.
    2:{ eapply Hstop.
        - apply exit_caught, thrown_by_transport. rewrite Hfetch.
          apply text_rejects; eassumption.
        - cbn [attempt_loop]. now rewrite Hfetch, Hok, Hbody. }
    destruct (Z.eq_dec (status response) 429%Z) as [Hstatus|Hstatus];
      [destruct (Nat.lt_ge_cases attempt (MAX_RETRIES - 1)) as [Hspare|Hlast]|].
    + destruct (IH (S attempt) ltac:(lia) ltac:(lia))
        as (j & value & tail & Hj & Hrun & Hexit & Heq).
      exists (S j), value, tail.
      replace (attempt + S j)%nat with (S attempt + j)%nat by lia.
      split; [exact Hj|]. split; [|split; [exact Hexit|]].
      * intros i Hi. destruct (Nat.eq_dec i attempt) as [->|Hne].
        -- now exists response, errorBody.
        -- apply Hrun. lia.
      * rewrite (attempt_loop_retry env url payload _ _ _ _ Hfetch Hstatus Hbody Hspare).
        rewrite Heq. cbn [fst snd retries]. now rewrite <- ?app_assoc.
    + eapply Hstop.
      * eapply exit_caught, thrown_by_status; try eassumption. right. lia.
      * rewrite (attempt_loop_fails env url payload _ _ _ _ Hfetch Hok Hbody)
          by (right; exact Hlast).
        reflexivity.
    + eapply Hstop.
      * eapply exit_caught, thrown_by_status; try eassumption. now left.
      * rewrite (attempt_loop_fails env url payload _ _ _ _ Hfetch Hok Hbody)
          by (left; exact Hstatus).
        reflexivity.
Qed.

Lemma loop_exit_no_fetch (k : nat) (value : JSON) (tail : list event) :
  loop_exit env k value tail -> attempts_made tail = 0%nat /\ waits_made tail = 0%nat.
Proof. intros []; now split. Qed.

Lemma loop_exit_no_sleep (k : nat) (value : JSON) (tail : list event) :
  loop_exit env k value tail -> sleep_time tail = 0%Q.
Proof. now intros []. Qed.

End Exits.

Lemma getResponse_exits (env : Env) (key userMessage : string) (history : list Turn) :
  GEMINI_API_KEY env = Some key ->
  key <> EmptyString ->
  let payload :=
    {| contents := history ++ [mkTurn user (JStr userMessage)];
       systemInstruction := SYSTEM_PROMPT |} in
  exists k value tail,
    (k < MAX_RETRIES)%nat
    /\ rate_limited_before env k
    /\ loop_exit env k value tail
    /\ getResponse env userMessage history =
         (value, retries env (apiURL key) payload 0 k ++ Fetch (apiURL key) payload :: tail).
Proof.
  intros Hkey Hne payload.
  rewrite (getResponse_with_key _ _ _ _ Hkey Hne). fold payload.
  destruct (attempt_loop_exits env (apiURL key) payload MAX_RETRIES 0
              eq_refl ltac:(unfold MAX_RETRIES; lia))
    as (k & value & tail & Hk & Hrun & Hexit & Heq).
  exists k, value, tail. cbn [Nat.add] in *.
  repeat split; try assumption. intros i Hi. apply Hrun. lia.
Qed.

Lemma getResponse_without_key (env : Env) (userMessage : string) (history : list Turn) :
  GEMINI_API_KEY env = None \/ GEMINI_API_KEY env = Some EmptyString ->
  getResponse env userMessage history = (JStr "ERROR: API key missing", [LogMissingKey]).
Proof. unfold getResponse. now intros [-> | ->]. Qed.

Lemma key_cases (env : Env) :
  (GEMINI_API_KEY env = None \/ GEMINI_API_KEY env = Some EmptyString)
  \/ exists key, GEMINI_API_KEY env = Some key /\ key <> EmptyString.
Proof.
  destruct (GEMINI_API_KEY env) as [[|c key]|]; [left; now right | right | left; now left].
  now exists (String c key).
Qed.

Lemma retries_fetches (env : Env) (url url' : string) (payload payload' : Payload)
    (from count : nat) :
  In (Fetch url' payload') (retries env url payload from count) ->
  url' = url /\ payload' = payload.
Proof.
  revert from; induction count as [|count IH]; intros from; [intros []|].
  cbn [retries app In]. intros [Hhere | [Habs | [Habs | Hlater]]];
    try discriminate; [|now apply (IH (S from))].
  now inversion Hhere.
Qed.

Lemma loop_exit_events (env : Env) (k : nat) (value : JSON) (tail : list event) (e : event) :
  loop_exit env k value tail -> In e tail -> is_fetch e = false /\ is_sleep e = false.
Proof.
  intros Hexit Hin. destruct Hexit; cbn in Hin;
    [destruct Hin | destruct Hin as [<- | []] | destruct Hin as [<- | []]];
    now split.
Qed.

(** X1. A call makes at most [MAX_RETRIES] = 3 network calls and at most 2
    waits, for every transport; a wait is always followed by another network
    call; and no network call at all is made exactly when the credential is
    undefined or the empty string. *)
Theorem getResponse_call_budget (env : Env) (userMessage : string) (history : list Turn) :
  let trace := snd (getResponse env userMessage history) in
  (attempts_made trace <= MAX_RETRIES)%nat
  /\ (waits_made trace <= MAX_RETRIES - 1)%nat
  /\ (attempts_made trace = 0%nat \/ attempts_made trace = (waits_made trace + 1)%nat)
  /\ (attempts_made trace = 0%nat <->
      GEMINI_API_KEY env = None \/ GEMINI_API_KEY env = Some EmptyString).
Proof.
  intros trace. subst trace.
  destruct (key_cases env) as [Hnone | (key & Hkey & Hne)].
  - rewrite (getResponse_without_key _ _ _ Hnone). cbn.
    repeat split; try lia; auto.
  - destruct (getResponse_exits env key userMessage history Hkey Hne)
      as (k & value & tail & Hk & _ & Hexit & ->).
    destruct (loop_exit_no_fetch env k value tail Hexit) as [Hfetches Hwaits].
    cbn [snd]. rewrite attempts_made_reached, waits_made_reached.
    change (Fetch (apiURL key)
              {| contents := history ++ [mkTurn user (JStr userMessage)];
                 systemInstruction := SYSTEM_PROMPT |} :: tail)
      with ([Fetch (apiURL key)
               {| contents := history ++ [mkTurn user (JStr userMessage)];
                  systemInstruction := SYSTEM_PROMPT |}] ++ tail).
    rewrite attempts_made_app, waits_made_app, Hfetches, Hwaits.
    cbn [attempts_made waits_made List.filter is_fetch is_sleep length].
    repeat split; try lia.
    intros [Habs | Habs]; rewrite Hkey in Habs; [discriminate | congruence].
Qed.

(** X2. With a credential, every call ends inside the loop: at some attempt
    [k < 3], reached through [k] answers 429 that were each logged and waited
    for, the body of the loop returns the text, the placeholder or the
    message of the [catch] block, and the trace ends with that attempt's
    network call and at most one log line. The trace never ends on a wait,
    so the [return] after the loop is never reached. *)
Theorem getResponse_always_exits_in_loop
    (env : Env) (key userMessage : string) (history : list Turn) :
  GEMINI_API_KEY env = Some key ->
  key <> EmptyString ->
  let payload :=
    {| contents := history ++ [mkTurn user (JStr userMessage)];
       systemInstruction := SYSTEM_PROMPT |} in
  exists k value tail,
    (k < MAX_RETRIES)%nat
    /\ rate_limited_before env k
    /\ loop_exit env k value tail
    /\ getResponse env userMessage history =
         (value, retries env (apiURL key) payload 0 k ++ Fetch (apiURL key) payload :: tail)
    /\ forall d, last (snd (getResponse env userMessage history)) <> Some (Sleep d).
Proof.
  intros Hkey Hne payload.
  destruct (getResponse_exits env key userMessage history Hkey Hne)
    as (k & value & tail & Hk & Hrun & Hexit & Heq).
  exists k, value, tail. fold payload in Heq.
  repeat split; try assumption.
  intros d. rewrite Heq. cbn [snd]. rewrite last_app.
  destruct Hexit; cbn; congruence.
Qed.

Lemma getResponse_always_exits_witness :
  exists k value tail,
    (k < MAX_RETRIES)%nat
    /\ loop_exit Sample.third_time_lucky k value tail
    /\ fst (getResponse Sample.third_time_lucky "hi" []) = value.
Proof.
  destruct (getResponse_always_exits_in_loop Sample.third_time_lucky "k3y" "hi" []
              eq_refl ltac:(discriminate))
    as (k & value & tail & Hk & _ & Hexit & Heq & _).
  exists k, value, tail. rewrite Heq. now repeat split.
Defined.

Lemma fetches_of_getResponse
    (env : Env) (userMessage : string) (history : list Turn)
    (url : string) (payload : Payload) :
  In (Fetch url payload) (snd (getResponse env userMessage history)) ->
  exists key,
    GEMINI_API_KEY env = Some key
    /\ key <> EmptyString
    /\ url = apiURL key
    /\ contents payload = history ++ [mkTurn user (JStr userMessage)]
    /\ systemInstruction payload = SYSTEM_PROMPT.
Proof.
  destruct (key_cases env) as [Hnone | (key & Hkey & Hne)].
  - rewrite (getResponse_without_key _ _ _ Hnone). cbn. intros [Habs | []]. discriminate.
  - destruct (getResponse_exits env key userMessage history Hkey Hne)
      as (k & value & tail & _ & _ & Hexit & ->).
    cbn [snd]. rewrite in_app_iff. cbn [In].
    intros [Hretry | [Hlast | Htail]].
    + apply retries_fetches in Hretry as [-> ->]. now exists key.
    + inversion Hlast; subst. now exists key.
    + now destruct (loop_exit_events env k value tail _ Hexit Htail).
Qed.

(** X3. Every network call of a call carries the same request: the URL with
    the configured key, and a body whose contents are the history that was
    passed in, oldest first, followed by one user turn with the user message,
    under the fixed system instruction. *)
Theorem getResponse_sends_one_request
    (env : Env) (userMessage : string) (history : list Turn)
    (url : string) (payload : Payload) :
  In (Fetch url payload) (snd (getResponse env userMessage history)) ->
  exists key,
    GEMINI_API_KEY env = Some key
    /\ key <> EmptyString
    /\ url = apiURL key
    /\ contents payload = history ++ [mkTurn user (JStr userMessage)]
    /\ systemInstruction payload = SYSTEM_PROMPT.
Proof. exact (fetches_of_getResponse env userMessage history url payload). Qed.

Lemma getResponse_sends_one_request_witness :
  exists key,
    GEMINI_API_KEY Sample.always_429 = Some key
    /\ apiURL "k3y" = apiURL key.
Proof.
  destruct (getResponse_sends_one_request Sample.always_429 "hi" []
              (apiURL "k3y")
              {| contents := [mkTurn user (JStr "hi")];
                 systemInstruction := SYSTEM_PROMPT |})
    as (key & Hkey & _ & Hurl & _).
  - cbn. now left.
  - now exists key.
Defined.

(** X4. What a successful answer gives, for every body but [null] and every
    type of the value at [candidates[0].content.parts[0].text]: a truthy
    value is returned as it is, string or not, and a falsy one ([undefined],
    [null], [false], [0], the empty string) gives the placeholder. *)
Theorem getResponse_reads_the_text_field
    (env : Env) (key userMessage : string) (history : list Turn)
    (k : nat) (response : Response) (result : JSON) :
  GEMINI_API_KEY env = Some key ->
  key <> EmptyString ->
  (k < MAX_RETRIES)%nat ->
  rate_limited_before env k ->
  fetch env k = Returns response ->
  ok response = true ->
  body_json response = Returns result ->
  result <> JNull ->
  (forall value,
     text_field result = Some value -> truthy (Some value) = true ->
     fst (getResponse env userMessage history) = value)
  /\ (truthy (text_field result) = false ->
      fst (getResponse env userMessage history) = JStr "No comment.").
Proof.
  intros Hkey Hne Hk Hrun Hfetch Hok Hjson Hnot.
  rewrite (getResponse_reaches env key userMessage history k Hkey Hne Hk Hrun).
  cbn zeta.
  rewrite (attempt_loop_ok env _ _ _ k response result _ Hfetch Hok Hjson
             (extract_text_text_field result Hnot)).
  split.
  - intros value -> Htruthy. now rewrite Htruthy.
  - intros Hfalsy. destruct (text_field result) as [value|]; [|reflexivity].
    now rewrite Hfalsy.
Qed.

Lemma getResponse_reads_the_text_field_witness :
  fst (getResponse Sample2.zero_text "hi" []) = JStr "No comment.".
Proof.
  refine (proj2 (getResponse_reads_the_text_field Sample2.zero_text "k3y" "hi" [] 0
                   (Sample.response_of 200 "" _) _
                   eq_refl _ _ _ eq_refl eq_refl eq_refl _) eq_refl).
  - discriminate.
  - unfold MAX_RETRIES; lia.
  - intros i Hi; lia.
  - discriminate.
Defined.

Section Waiting.

Local Open Scope Q_scope.

Lemma delay_0 (random : Q) : delay 0 random == 1000 + random * 1000.
Proof. unfold delay. change (2 ^ Z.of_nat 0)%Z with 1%Z. unfold inject_Z. ring. Qed.

Lemma delay_1 (random : Q) : delay 1 random == 2000 + random * 1000.
Proof. unfold delay. change (2 ^ Z.of_nat 1)%Z with 2%Z. unfold inject_Z. ring. Qed.

Lemma sleep_time_app (t1 t2 : list event) :
  sleep_time (t1 ++ t2) == sleep_time t1 + sleep_time t2.
Proof.
  induction t1 as [|e t1 IH]; cbn [app sleep_time]; [ring|].
  destruct e; try exact IH. rewrite IH. ring.
Qed.

Lemma sleep_time_retries (env : Env) (url : string) (payload : Payload) (k : nat) :
  unit_draws env ->
  (k <= 2)%nat ->
  sleep_time (retries env url payload 0 k) < 5000.
Proof.
  intros Hdraws Hk.
  destruct (Hdraws 0%nat) as [H0 H0'], (Hdraws 1%nat) as [H1 H1'].
  destruct k as [|[|[|k]]]; [| | |lia]; cbn [retries app sleep_time].
  - lra.
  - rewrite delay_0. lra.
  - rewrite delay_0, delay_1. lra.
Qed.

End Waiting.

(** * Further properties of the handler *)

(** The four ways through the handler. *)
Lemma handler_cases (env : Env) (st : gmap string (list Turn)) (message : Message) :
  let userPrompt := userPrompt_of (content message) in
  let currentHistory := history_of st (channelId message) in
  let outcome := getResponse env userPrompt currentHistory in
  ((author_bot message = true \/ startsWith (content message) BOT_PREFIX = false)
   /\ handler env st message = (st, []))
  \/ (author_bot message = false /\ startsWith (content message) BOT_PREFIX = true
      /\ userPrompt = EmptyString
      /\ handler env st message = (st, [Reply usage_message]))
  \/ (exists reason,
        author_bot message = false /\ startsWith (content message) BOT_PREFIX = true
        /\ userPrompt <> EmptyString
        /\ sendTyping env = Throws reason
        /\ handler env st message = (st, SendTyping :: processing_failed reason))
  \/ (author_bot message = false /\ startsWith (content message) BOT_PREFIX = true
      /\ userPrompt <> EmptyString
      /\ sendTyping env = Returns tt
      /\ handler env st message =
           (<[channelId message := updateHistory currentHistory userPrompt (fst outcome)]> st,
            SendTyping :: snd outcome ++ deliver env (fst outcome))).
Proof.
  cbn zeta. unfold handler. fold (history_of st (channelId message)).
  destruct (author_bot message); [left; split; [now left | reflexivity]|].
  destruct (startsWith (content message) BOT_PREFIX);
    [|left; split; [now right | reflexivity]].
  destruct (userPrompt_of (content message)) as [|c prompt] eqn:Hprompt;
    [right; left; now repeat split|].
  cbn [nonempty negb].
  destruct (sendTyping env) as [[]|reason].
  - right; right; right.
    destruct (getResponse env (String c prompt) (history_of st (channelId message))).
    now repeat split.
  - right; right; left. exists reason. now repeat split.
Qed.

Section Pairs.

Lemma whole_pairs_drop_2 (history : list Turn) :
  whole_pairs history = true -> whole_pairs (drop 2 history) = true.
Proof.
  destruct history as [|first [|second rest]]; cbn; try congruence.
  intros H. now apply andb_prop in H as [_ H].
Qed.

Lemma whole_pairs_drop_even (j : nat) (history : list Turn) :
  whole_pairs history = true -> whole_pairs (drop (2 * j) history) = true.
Proof.
  revert history; induction j as [|j IH]; intros history H; [exact H|].
  replace (2 * S j)%nat with (2 + 2 * j)%nat by lia.
  rewrite <- drop_drop. now apply IH, whole_pairs_drop_2.
Qed.

Lemma whole_pairs_bounded (n : nat) (history : list Turn) (first second : Turn) :
  (length history <= n)%nat ->
  whole_pairs history = true ->
  is_user first = true -> is_model second = true ->
  whole_pairs (history ++ [first; second]) = true
  /\ exists m, length history = (2 * m)%nat.
Proof.
  intros Hn Hpairs Hfirst Hsecond.
  revert history Hn Hpairs; induction n as [|n IH]; intros history Hn Hpairs.
  - destruct history; [|cbn in Hn; lia]. cbn. rewrite Hfirst, Hsecond.
    split; [reflexivity | now exists 0%nat].
  - destruct history as [|a [|b rest]]; cbn in Hpairs; try congruence.
    + cbn. rewrite Hfirst, Hsecond. split; [reflexivity | now exists 0%nat].
    + apply andb_prop in Hpairs as [Hab Hrest].
      cbn in Hn. destruct (IH rest ltac:(lia) Hrest) as [Happ (m & Hm)].
      split.
      * cbn [app whole_pairs]. cbn [app] in Happ.
        destruct (rest ++ [first; second]) eqn:Hshape;
          [now destruct rest | now rewrite Hab, Happ].
      * exists (S m). cbn [length]. lia.
Qed.

Lemma whole_pairs_updateHistory (cur : list Turn) (userPrompt : string) (responseText : JSON) :
  whole_pairs cur = true ->
  whole_pairs (updateHistory cur userPrompt responseText) = true.
Proof.
  intros Hcur. rewrite updateHistory_drop. cbn zeta.
  destruct (whole_pairs_bounded (length cur) cur (mkTurn user (JStr userPrompt))
              (mkTurn model responseText) (Nat.le_refl _) Hcur eq_refl eq_refl)
    as [Happ (m & Hm)].
  rewrite length_app, Hm. cbn [length].
  replace (2 * m + 2 - 2 * MAX_HISTORY_TURNS)%nat
    with (2 * (m + 1 - MAX_HISTORY_TURNS))%nat by lia.
  now apply whole_pairs_drop_even.
Qed.

Lemma whole_pairs_handler (env : Env) (st : gmap string (list Turn)) (message : Message) :
  (forall key, whole_pairs (history_of st key) = true) ->
  forall key, whole_pairs (history_of (fst (handler env st message)) key) = true.
Proof.
  intros Hst key.
  destruct (handler_store env st message) as [-> | (u & r & ->)]; [apply Hst|].
  unfold history_of.
  destruct (decide (channelId message = key)) as [-> | Hother].
  - rewrite lookup_insert_eq. cbn -[updateHistory].
    apply whole_pairs_updateHistory, Hst.
  - rewrite lookup_insert_ne by exact Hother. apply Hst.
Qed.

End Pairs.

(** X6. The stored histories are always made of whole exchanges: from the
    empty map, after any sequence of messages, the history of every key is a
    sequence of pairs of a user turn followed by a model turn; the cut at 10
    turns never splits a pair, so a stored history never starts with a model
    turn. *)
Theorem histories_hold_whole_pairs (calls : list (Env * Message)) (key : string) :
  whole_pairs (history_of (run calls ∅) key) = true.
Proof.
  assert (Hgen : forall st,
            (forall k, whole_pairs (history_of st k) = true) ->
            forall k, whole_pairs (history_of (run calls st) k) = true).
  { induction calls as [|[env message] calls IH]; intros st Hst k; [apply Hst|].
    cbn [run]. apply IH. now apply whole_pairs_handler. }
  apply Hgen. intros k. unfold history_of. now rewrite lookup_empty.
Qed.

Lemma updateHistory_keeps_new_pair (cur : list Turn) (userPrompt : string)
    (responseText : JSON) :
  updateHistory cur userPrompt responseText =
    drop (length cur - (2 * MAX_HISTORY_TURNS - 2)) cur
    ++ [mkTurn user (JStr userPrompt); mkTurn model responseText].
Proof.
  rewrite updateHistory_drop. cbn zeta. rewrite length_app. cbn [length].
  replace (length cur + 2 - 2 * MAX_HISTORY_TURNS)%nat
    with (length cur - (2 * MAX_HISTORY_TURNS - 2))%nat
    by (unfold MAX_HISTORY_TURNS; lia).
  apply drop_app_le. lia.
Qed.

(** X7. After a message that reaches the completion call, reading the
    channel's history gives the last 8 turns of what was there, followed by
    the user turn with the utterance and the model turn with whatever the
    call returned, error messages included: the new exchange is never the
    one that is cut. *)
Theorem handler_stores_the_exchange
    (env : Env) (st : gmap string (list Turn)) (message : Message) :
  author_bot message = false ->
  startsWith (content message) BOT_PREFIX = true ->
  userPrompt_of (content message) <> EmptyString ->
  sendTyping env = Returns tt ->
  let userPrompt := userPrompt_of (content message) in
  let old := history_of st (channelId message) in
  history_of (fst (handler env st message)) (channelId message) =
    drop (length old - 8) old
    ++ [mkTurn user (JStr userPrompt);
        mkTurn model (fst (getResponse env userPrompt old))].
Proof.
  intros Hhuman Hprefix Hsome Htyping userPrompt old.
  destruct (handler_cases env st message)
    as [[[Hbot | Hno] _] | [(_ & _ & Hempty & _) | [(reason & _ & _ & _ & Hrefused & _)
       | (_ & _ & _ & _ & ->)]]]; try congruence.
  cbn [fst]. unfold history_of at 1. rewrite lookup_insert_eq. cbn -[updateHistory].
  apply updateHistory_keeps_new_pair.
Qed.

Lemma handler_stores_the_exchange_witness :
  history_of (fst (handler Sample.no_key Sample2.one_exchange (Sample.from_user "!droid hi")))
    "general" =
  [mkTurn user (JStr "ping"); mkTurn model (JStr "pong");
   mkTurn user (JStr "hi"); mkTurn model (JStr "ERROR: API key missing")].
Proof.
  apply (handler_stores_the_exchange Sample.no_key Sample2.one_exchange
           (Sample.from_user "!droid hi")).
  - reflexivity.
  - reflexivity.
  - discriminate.
  - reflexivity.
Defined.

(** X8. A message touches the history of its own channel only: every other
    key of the map reads as before, and no key is ever removed, so the keys
    of the new map are the old keys, with the channel of the message added
    when the completion call was reached. *)
Theorem handler_touches_one_channel
    (env : Env) (st : gmap string (list Turn)) (message : Message) :
  (forall key, key <> channelId message ->
     fst (handler env st message) !! key = st !! key)
  /\ dom st ⊆ dom (fst (handler env st message))
  /\ dom (fst (handler env st message)) ⊆ dom st ∪ {[channelId message]}.
Proof.
  destruct (handler_store env st message) as [-> | (u & r & ->)].
  - split; [reflexivity|]. split; [reflexivity | apply union_subseteq_l].
  - split; [intros key Hkey; now rewrite lookup_insert_ne|].
    rewrite dom_insert_L. split; [apply union_subseteq_r|].
    now rewrite (comm_L union).
Qed.

(** X9. The handler does nothing at all, no reply, no typing indicator, no
    network call, no change of the map, exactly when the author is a bot or
    the text does not start with the trigger. *)
Theorem handler_ignores_exactly_the_others
    (env : Env) (st : gmap string (list Turn)) (message : Message) :
  (snd (handler env st message) = [] <->
     author_bot message = true \/ startsWith (content message) BOT_PREFIX = false)
  /\ (snd (handler env st message) = [] -> fst (handler env st message) = st).
Proof.
  destruct (handler_cases env st message)
    as [[Hwhy ->] | [(Hhuman & Hprefix & _ & ->) | [(reason & Hhuman & Hprefix & _ & _ & ->)
       | (Hhuman & Hprefix & _ & _ & ->)]]]; cbn [fst snd].
  - split; [now split | reflexivity].
  - split; [split; [discriminate | intros [H | H]; congruence] | discriminate].
  - split; [split; [discriminate | intros [H | H]; congruence] | discriminate].
  - split; [split; [discriminate | intros [H | H]; congruence] | discriminate].
Qed.

Lemma retries_no_answer (env : Env) (url : string) (payload : Payload)
    (from count : nat) (e : event) :
  In e (retries env url payload from count) -> is_answer e = false.
Proof.
  revert from; induction count as [|count IH]; intros from; [intros []|].
  cbn [retries app In]. intros [<- | [<- | [<- | Hlater]]]; try reflexivity.
  now apply (IH (S from)).
Qed.

Lemma getResponse_no_answer (env : Env) (userMessage : string) (history : list Turn)
    (e : event) :
  In e (snd (getResponse env userMessage history)) -> is_answer e = false.
Proof.
  destruct (key_cases env) as [Hnone | (key & Hkey & Hne)].
  - rewrite (getResponse_without_key _ _ _ Hnone). cbn. now intros [<- | []].
  - destruct (getResponse_exits env key userMessage history Hkey Hne)
      as (k & value & tail & _ & _ & Hexit & ->).
    cbn [snd]. rewrite in_app_iff. cbn [In].
    intros [Hretry | [<- | Htail]]; [now apply retries_no_answer in Hretry | reflexivity |].
    destruct Hexit; cbn in Htail;
      [destruct Htail | destruct Htail as [<- | []] | destruct Htail as [<- | []]];
      reflexivity.
Qed.

Lemma formatReply_length (responseText : string) :
  (String.length (formatReply responseText) <= 2000)%nat.
Proof.
  unfold formatReply.
  destruct (Nat.ltb_spec 2000 (String.length responseText)) as [Hlong | Hshort];
    [|exact Hshort].
  rewrite length_app_string, js_substring_0.
  pose proof (substring_0_length_le 1980 responseText).
  change (String.length " yada yada") with 10%nat. lia.
Qed.

Lemma deliver_events (env : Env) (responseText : JSON) (e : event) :
  In e (deliver env responseText) ->
  is_fetch e = false
  /\ forall c, e = Reply c -> (String.length c <= 2000)%nat.
Proof.
  assert (Hfailed : forall reason,
            In e (processing_failed reason) ->
            is_fetch e = false
            /\ forall c, e = Reply c -> (String.length c <= 2000)%nat).
  { intros reason [<- | [<- | []]]; (split; [reflexivity|]); intros c [= <-].
    vm_compute. lia. }
  assert (Hother : forall value,
            In e (match exceeds_limit value with
                  | Some true => processing_failed substring_missing_message
                  | Some false => [ReplyNonString value]
                  | None => [LengthTestOutsideModel value]
                  end) ->
            is_fetch e = false
            /\ forall c, e = Reply c -> (String.length c <= 2000)%nat).
  { intros value. destruct (exceeds_limit value) as [[|]|];
      [apply Hfailed | |]; intros [<- | []]; (split; [reflexivity | discriminate]). }
  unfold deliver. destruct responseText as [| | |s| |];
    try apply Hother; [apply Hfailed|].
  destruct (reply env (formatReply s)) as [[]|reason].
  - intros [<- | []]. split; [reflexivity|].
    intros c [= <-]. apply formatReply_length.
  - intros [<- | Hin]; [|now apply (Hfailed reason)].
    split; [reflexivity|]. intros c [= <-]. apply formatReply_length.
Qed.

(** X11. Whatever the completion call returns, the handler never hands
    Discord a reply of more than 2000 code units: this holds for the usage
    message, for the generic error message and for every formatted text. *)
Theorem handler_replies_fit_the_limit
    (env : Env) (st : gmap string (list Turn)) (message : Message) (c : string) :
  In (Reply c) (snd (handler env st message)) ->
  (String.length c <= 2000)%nat.
Proof.
  destruct (handler_cases env st message)
    as [[_ ->] | [(_ & _ & _ & ->) | [(reason & _ & _ & _ & _ & ->)
       | (_ & _ & _ & _ & ->)]]]; cbn [snd processing_failed In].
  - intros [].
  - intros [[= <-] | []]. vm_compute. lia.
  - intros [Habs | [Habs | [[= <-] | []]]]; try discriminate. vm_compute. lia.
  - intros [Habs | Hin]; [discriminate|].
    apply in_app_iff in Hin as [Hcall | Hout].
    + now apply getResponse_no_answer in Hcall.
    + now apply (deliver_events _ _ _ Hout).
Qed.

Lemma handler_replies_fit_the_limit_witness :
  (String.length "Roger Roger" <= 2000)%nat.
Proof.
  apply (handler_replies_fit_the_limit Sample.third_time_lucky ∅
           (Sample.from_user "!droid hi") "Roger Roger").
  vm_compute. right. right. right. right. right. right. right. right. now left.
Defined.

(** X12. When Discord refuses the typing indicator, the handler logs the
    error and sends the generic error reply; the completion call is not
    made and the history is left as it was. *)
Theorem handler_gives_up_when_typing_fails
    (env : Env) (st : gmap string (list Turn)) (message : Message) (reason : string) :
  author_bot message = false ->
  startsWith (content message) BOT_PREFIX = true ->
  userPrompt_of (content message) <> EmptyString ->
  sendTyping env = Throws reason ->
  handler env st message =
    (st, [SendTyping; LogProcessingError reason; Reply runtime_error_message])
  /\ attempts_made (snd (handler env st message)) = 0%nat.
Proof.
  intros Hhuman Hprefix Hsome Htyping.
  destruct (handler_cases env st message)
    as [[[Hbot | Hno] _] | [(_ & _ & Hempty & _) | [(reason' & _ & _ & _ & Hrefused & ->)
       | (_ & _ & _ & Hfine & _)]]]; try congruence.
  rewrite Htyping in Hrefused. injection Hrefused as <-. now split.
Qed.

Lemma handler_gives_up_witness :
  handler Sample2.typing_refused ∅ (Sample.from_user "!droid hi") =
    (∅, [SendTyping; LogProcessingError "Missing Access";
         Reply "Runtime error occured beep boop."]).
Proof.
  apply (handler_gives_up_when_typing_fails Sample2.typing_refused ∅
           (Sample.from_user "!droid hi") "Missing Access");
    [reflexivity | reflexivity | discriminate | reflexivity].
Defined.

(** X13. When Discord refuses the reply itself, the exchange has already
    been stored: the history holds the user turn and the model turn although
    the user never saw the text, and the handler ends with the log line and
    the generic error reply. *)
Theorem handler_keeps_history_when_reply_fails
    (env : Env) (st : gmap string (list Turn)) (message : Message)
    (s reason : string) :
  author_bot message = false ->
  startsWith (content message) BOT_PREFIX = true ->
  userPrompt_of (content message) <> EmptyString ->
  sendTyping env = Returns tt ->
  let userPrompt := userPrompt_of (content message) in
  let old := history_of st (channelId message) in
  fst (getResponse env userPrompt old) = JStr s ->
  reply env (formatReply s) = Throws reason ->
  fst (handler env st message) =
    <[channelId message := updateHistory old userPrompt (JStr s)]> st
  /\ snd (handler env st message) =
       SendTyping :: snd (getResponse env userPrompt old)
         ++ [Reply (formatReply s); LogProcessingError reason;
             Reply runtime_error_message].
Proof.
  intros Hhuman Hprefix Hsome Htyping userPrompt old Hvalue Hrefused.
  destruct (handler_cases env st message)
    as [[[Hbot | Hno] _] | [(_ & _ & Hempty & _) | [(reason' & _ & _ & _ & Habs & _)
       | (_ & _ & _ & _ & ->)]]]; try congruence.
  fold userPrompt old. rewrite Hvalue. cbn [fst snd deliver].
  now rewrite Hrefused.
Qed.

Lemma handler_keeps_history_witness :
  history_of (fst (handler Sample2.reply_refused ∅ (Sample.from_user "!droid hi")))
    "general" =
  [mkTurn user (JStr "hi"); mkTurn model (JStr "Roger Roger")].
Proof.
  rewrite (proj1 (handler_keeps_history_when_reply_fails Sample2.reply_refused ∅
                    (Sample.from_user "!droid hi") "Roger Roger" "Unknown Message"
                    eq_refl eq_refl ltac:(discriminate) eq_refl eq_refl eq_refl)).
  reflexivity.
Defined.

(** X14. The request of a triggered message carries the stored history of
    its channel followed by the utterance, so that, as long as the map obeys
    the capacity of 10 turns, no request carries more than 11 contents. *)
Theorem handler_request_is_bounded
    (env : Env) (st : gmap string (list Turn)) (message : Message)
    (url : string) (payload : Payload) :
  bounded st ->
  In (Fetch url payload) (snd (handler env st message)) ->
  contents payload =
    history_of st (channelId message)
    ++ [mkTurn user (JStr (userPrompt_of (content message)))]
  /\ (length (contents payload) <= 2 * MAX_HISTORY_TURNS + 1)%nat.
Proof.
  intros Hbounded Hin.
  assert (Hcontents : contents payload =
            history_of st (channelId message)
            ++ [mkTurn user (JStr (userPrompt_of (content message)))]).
  { destruct (handler_cases env st message)
      as [[_ Heq] | [(_ & _ & _ & Heq) | [(reason & _ & _ & _ & _ & Heq)
         | (_ & _ & _ & _ & Heq)]]]; rewrite Heq in Hin;
      cbn [snd processing_failed In] in Hin.
    - destruct Hin.
    - destruct Hin as [Habs | []]; discriminate.
    - destruct Hin as [Habs | [Habs | [Habs | []]]]; discriminate.
    - destruct Hin as [Habs | Hin]; [discriminate|].
      apply in_app_iff in Hin as [Hcall | Hout].
      + now apply fetches_of_getResponse in Hcall as (key & _ & _ & _ & Hc & _).
      + now destruct (deliver_events _ _ _ Hout) as [Hno _].
  }
  split; [exact Hcontents|].
  rewrite Hcontents, length_app. cbn [length].
  specialize (Hbounded (channelId message)). lia.
Qed.

Lemma handler_request_is_bounded_witness :
  (length [mkTurn user (JStr "ping"); mkTurn model (JStr "pong"); mkTurn user (JStr "hi")]
     <= 2 * MAX_HISTORY_TURNS + 1)%nat.
Proof.
  apply (handler_request_is_bounded Sample.third_time_lucky Sample2.one_exchange
           (Sample.from_user "!droid hi") (apiURL "k3y")
           {| contents := [mkTurn user (JStr "ping"); mkTurn model (JStr "pong");
                           mkTurn user (JStr "hi")];
              systemInstruction := SYSTEM_PROMPT |}).
  - intros key. unfold history_of, Sample2.one_exchange.
    destruct (decide (key = "general")) as [-> | Hne].
    + rewrite lookup_singleton_eq. cbn. lia.
    + rewrite lookup_singleton_ne by congruence. cbn. lia.
  - vm_compute. right. now left.
Defined.

(** * Further properties of the utterance *)

Section Trimming.

Lemma cons_app_string (c : ascii) (a b : string) :
  String c a +:+ b = String c (a +:+ b).
Proof. reflexivity. Qed.

Lemma trimStart_split (s : string) :
  exists lead,
    s = lead +:+ trimStart s
    /\ all_white_space lead = true
    /\ starts_with_white_space (trimStart s) = false.
Proof.
  induction s as [|c s (lead & Hs & Hlead & Hstart)].
  - now exists EmptyString.
  - cbn [trimStart]. destruct (is_white_space c) eqn:Hc.
    + exists (String c lead). rewrite cons_app_string, <- Hs.
      cbn [all_white_space]. now rewrite Hc, Hlead.
    + exists EmptyString. now repeat split.
Qed.

Lemma trimEnd_split (s : string) :
  exists trail,
    s = trimEnd s +:+ trail
    /\ all_white_space trail = true
    /\ ends_with_white_space (trimEnd s) = false
    /\ (starts_with_white_space s = false ->
        starts_with_white_space (trimEnd s) = false).
Proof.
  induction s as [|c s (trail & Hs & Htrail & Hend & _)].
  - now exists EmptyString.
  - cbn [trimEnd]. destruct (trimEnd s) as [|d kept] eqn:Hkept.
    + change (s = trail) in Hs. subst trail.
      destruct (is_white_space c) eqn:Hc.
      * exists (String c s).
        cbn [all_white_space starts_with_white_space]. rewrite Hc, Htrail.
        now repeat split.
      * exists s.
        cbn [ends_with_white_space starts_with_white_space]. now repeat split.
    + exists trail. rewrite cons_app_string, <- Hs.
      cbn [starts_with_white_space].
      split; [reflexivity|]. split; [exact Htrail|]. split; [exact Hend | trivial].
Qed.

Lemma trim_split (s : string) :
  exists lead trail,
    s = lead +:+ trim s +:+ trail
    /\ all_white_space lead = true
    /\ all_white_space trail = true
    /\ starts_with_white_space (trim s) = false
    /\ ends_with_white_space (trim s) = false.
Proof.
  destruct (trimStart_split s) as (lead & Hs & Hlead & Hstart).
  destruct (trimEnd_split (trimStart s)) as (trail & Ht & Htrail & Hend & Hkeep).
  exists lead, trail. unfold trim.
  rewrite <- Ht, <- Hs. repeat split; auto.
Qed.

Lemma all_white_space_app (a b : string) :
  all_white_space (a +:+ b) = all_white_space a && all_white_space b.
Proof.
  induction a as [|c a IH]; [reflexivity|].
  rewrite cons_app_string. cbn [all_white_space]. now rewrite IH, andb_assoc.
Qed.

Lemma trimStart_white_space (s : string) :
  all_white_space s = true -> trimStart s = EmptyString.
Proof.
  induction s as [|c s IH]; [reflexivity|]. cbn [all_white_space trimStart].
  intros H. apply andb_prop in H as [-> H]. now apply IH.
Qed.

Lemma trim_empty_iff (s : string) :
  trim s = EmptyString <-> all_white_space s = true.
Proof.
  split.
  - intros Hempty. destruct (trim_split s) as (lead & trail & Hs & Hlead & Htrail & _).
    rewrite Hempty in Hs. rewrite Hs, !all_white_space_app, Hlead, Htrail.
    reflexivity.
  - intros Hall. unfold trim. now rewrite (trimStart_white_space s Hall).
Qed.

End Trimming.

(** X15. The utterance is the text after the trigger without the white
    space around it and with the white space inside it kept: the rest is
    some white space, the utterance, some white space, and the utterance
    neither starts nor ends with white space. *)
Theorem utterance_is_the_rest_trimmed (rest : string) :
  let userPrompt := userPrompt_of (BOT_PREFIX +:+ rest) in
  exists lead trail,
    rest = lead +:+ userPrompt +:+ trail
    /\ all_white_space lead = true
    /\ all_white_space trail = true
    /\ starts_with_white_space userPrompt = false
    /\ ends_with_white_space userPrompt = false.
Proof.
  cbn zeta. unfold userPrompt_of. rewrite slice_app. apply trim_split.
Qed.

(** X16. A message of a non-bot author that starts with the trigger gets the
    usage reply, and nothing else happens, exactly when what follows the
    trigger is white space only (or nothing). *)
Theorem usage_reply_iff_blank_rest
    (env : Env) (st : gmap string (list Turn)) (message : Message) (rest : string) :
  author_bot message = false ->
  content message = BOT_PREFIX +:+ rest ->
  (handler env st message = (st, [Reply usage_message]) <->
   all_white_space rest = true).
Proof.
  intros Hhuman Hcontent.
  assert (Hprompt : userPrompt_of (content message) = trim rest)
    by (unfold userPrompt_of; now rewrite Hcontent, slice_app).
  rewrite <- trim_empty_iff, <- Hprompt.
  destruct (handler_cases env st message)
    as [[[Hbot | Hno] _] | [(_ & _ & Hempty & ->) | [(reason & _ & _ & Hsome & _ & ->)
       | (_ & _ & Hsome & _ & ->)]]].
  - congruence.
  - rewrite Hcontent, startsWith_app in Hno. discriminate.
  - now split.
  - split; [intros [= _ Habs]; discriminate | intros; contradiction].
  - split; [intros [= _ Habs]; discriminate | intros; contradiction].
Qed.

Lemma usage_reply_iff_blank_rest_witness :
  handler Sample.third_time_lucky ∅ (Sample.from_user "!droid   ") =
    (∅, [Reply usage_message]).
Proof.
  apply (usage_reply_iff_blank_rest Sample.third_time_lucky ∅
           (Sample.from_user "!droid   ") "   " eq_refl eq_refl).
  reflexivity.
Defined.

(** * Two messages in a row *)

Lemma handler_fetch_contents
    (env : Env) (st : gmap string (list Turn)) (message : Message)
    (url : string) (payload : Payload) :
  In (Fetch url payload) (snd (handler env st message)) ->
  contents payload =
    history_of st (channelId message)
    ++ [mkTurn user (JStr (userPrompt_of (content message)))].
Proof.
  intros Hin.
  destruct (handler_cases env st message)
    as [[_ Heq] | [(_ & _ & _ & Heq) | [(reason & _ & _ & _ & _ & Heq)
       | (_ & _ & _ & _ & Heq)]]]; rewrite Heq in Hin;
    cbn [snd processing_failed In] in Hin.
  - destruct Hin.
  - destruct Hin as [Habs | []]; discriminate.
  - destruct Hin as [Habs | [Habs | [Habs | []]]]; discriminate.
  - destruct Hin as [Habs | Hin]; [discriminate|].
    apply in_app_iff in Hin as [Hcall | Hout].
    + now apply fetches_of_getResponse in Hcall as (key & _ & _ & _ & Hc & _).
    + now destruct (deliver_events _ _ _ Hout) as [Hno _].
Qed.

(** X17. The bot remembers, for messages handled one after the other: when
    a message has reached the completion call and its handling is over
    before the next message of the same channel is taken up, every request
    made for that next message carries the last 8 turns of the earlier
    history, then the first utterance and the answer it got, then the new
    utterance. *)
Theorem next_request_carries_the_exchange
    (env1 env2 : Env) (st : gmap string (list Turn)) (first next : Message)
    (url : string) (payload : Payload) :
  author_bot first = false ->
  startsWith (content first) BOT_PREFIX = true ->
  userPrompt_of (content first) <> EmptyString ->
  sendTyping env1 = Returns tt ->
  channelId next = channelId first ->
  let old := history_of st (channelId first) in
  let answer := fst (getResponse env1 (userPrompt_of (content first)) old) in
  In (Fetch url payload) (snd (handler env2 (fst (handler env1 st first)) next)) ->
  contents payload =
    drop (length old - 8) old
    ++ [mkTurn user (JStr (userPrompt_of (content first)));
        mkTurn model answer;
        mkTurn user (JStr (userPrompt_of (content next)))].
Proof.
  intros Hhuman Hprefix Hsome Htyping Hsame old answer Hin.
  apply handler_fetch_contents in Hin. rewrite Hin, Hsame.
  destruct (handler_cases env1 st first)
    as [[[Hbot | Hno] _] | [(_ & _ & Hempty & _) | [(reason & _ & _ & _ & Hrefused & _)
       | (_ & _ & _ & _ & ->)]]]; try congruence.
  cbn [fst]. unfold history_of at 1. rewrite lookup_insert_eq. cbn -[updateHistory].
  rewrite updateHistory_keeps_new_pair. fold old answer.
  now rewrite <- app_assoc.
Qed.

Lemma next_request_carries_the_exchange_witness :
  contents
    {| contents := [mkTurn user (JStr "one"); mkTurn model (JStr "Roger Roger");
                    mkTurn user (JStr "two")];
       systemInstruction := SYSTEM_PROMPT |}
  = [mkTurn user (JStr "one"); mkTurn model (JStr "Roger Roger");
     mkTurn user (JStr "two")].
Proof.
  rewrite (next_request_carries_the_exchange Sample.third_time_lucky Sample.always_429 ∅
             (Sample.from_user "!droid one") (Sample.from_user "!droid two")
             (apiURL "k3y") _ eq_refl eq_refl ltac:(discriminate) eq_refl eq_refl).
  - reflexivity.
  - vm_compute. right. now left.
Defined.

(** * The trigger *)

(** C9. For a message of a non-bot author whose text is the trigger followed
    by some rest, the utterance, which is the rest after stripping the
    trigger and trimming, is empty exactly when the rest is white space only,
    as it is for the trigger alone; and when the utterance is empty the
    handler's one action is the usage reply: no completion call is made and
    the map of histories is left as it was. *)
Theorem C9_empty_utterance_gets_usage
    (env : Env) (st : gmap string (list Turn)) (message : Message) (rest : string) :
  author_bot message = false ->
  content message = BOT_PREFIX +:+ rest ->
  (userPrompt_of (content message) = EmptyString <-> all_white_space rest = true)
  /\ (userPrompt_of (content message) = EmptyString ->
      handler env st message = (st, [Reply usage_message])
      /\ fst (handler env st message) = st
      /\ attempts_made (snd (handler env st message)) = 0%nat).
Proof.
  intros Hhuman Hcontent.
  assert (Hprompt : userPrompt_of (content message) = trim rest)
    by (unfold userPrompt_of; now rewrite Hcontent, slice_app).
  split; [rewrite Hprompt; apply trim_empty_iff|].
  intros Hempty. unfold handler.
  rewrite Hhuman, Hcontent, startsWith_app, <- Hcontent, Hempty.
  now repeat split.
Qed.

Lemma C9_empty_utterance_witness :
  (userPrompt_of "!droid   " = EmptyString <-> all_white_space "   " = true)
  /\ handler Sample.third_time_lucky ∅ (Sample.from_user "!droid   ") =
       (∅, [Reply "No message detected. Use `!droid [message]`."])
  /\ handler Sample.third_time_lucky ∅ (Sample.from_user "!droid") =
       (∅, [Reply "No message detected. Use `!droid [message]`."]).
Proof.
  destruct (C9_empty_utterance_gets_usage Sample.third_time_lucky ∅
              (Sample.from_user "!droid   ") "   " eq_refl eq_refl)
    as [Hiff Hblank].
  destruct (C9_empty_utterance_gets_usage Sample.third_time_lucky ∅
              (Sample.from_user "!droid") EmptyString eq_refl eq_refl)
    as [_ Halone].
  split; [exact Hiff|].
  split; [exact (proj1 (Hblank eq_refl)) | exact (proj1 (Halone eq_refl))].
Defined.

(** C10. The trigger is a bare prefix test. For a message of a non-bot
    author whose text starts with the six code units of the trigger, the
    text is the trigger followed by some rest, with or without a separator,
    and the utterance is that rest without the white space around it: the
    rest is white space, the utterance, white space, and the utterance
    neither starts nor ends with white space. An empty utterance gets the
    usage reply; any other is, once the typing indicator is accepted, what
    the completion call is made with and what is stored as the user turn. *)
Theorem C10_trigger_needs_no_separator
    (env : Env) (st : gmap string (list Turn)) (message : Message) :
  author_bot message = false ->
  startsWith (content message) BOT_PREFIX = true ->
  let userPrompt := userPrompt_of (content message) in
  let currentHistory := history_of st (channelId message) in
  let outcome := getResponse env userPrompt currentHistory in
  String.length BOT_PREFIX = 6%nat
  /\ (exists rest lead trail,
        content message = BOT_PREFIX +:+ rest
        /\ rest = lead +:+ userPrompt +:+ trail
        /\ all_white_space lead = true
        /\ all_white_space trail = true
        /\ starts_with_white_space userPrompt = false
        /\ ends_with_white_space userPrompt = false)
  /\ (userPrompt = EmptyString ->
        handler env st message = (st, [Reply usage_message]))
  /\ (userPrompt <> EmptyString ->
        sendTyping env = Returns tt ->
        exists delivered,
          handler env st message =
            (<[channelId message :=
                 updateHistory currentHistory userPrompt (fst outcome)]> st,
             SendTyping :: snd outcome ++ delivered)).
Proof.
  intros Hhuman Hprefix. cbn zeta. split; [reflexivity|]. split; [|split].
  - destruct (startsWith_inv _ _ Hprefix) as [rest Hrest].
    assert (Hprompt : userPrompt_of (content message) = trim rest)
      by (unfold userPrompt_of; now rewrite Hrest, slice_app).
    destruct (trim_split rest) as (lead & trail & Hsplit & Hlead & Htrail & Hs & He).
    exists rest, lead, trail. rewrite Hprompt. now repeat split.
  - intros Hempty. unfold handler. now rewrite Hhuman, Hprefix, Hempty.
  - intros Hsome Htyping.
    destruct (handler_cases env st message)
      as [[[Hbot | Hno] _] | [(_ & _ & Hempty & _) | [(reason & _ & _ & _ & Hrefused & _)
         | (_ & _ & _ & _ & ->)]]]; try congruence.
    now eexists.
Qed.

Lemma C10_trigger_witness :
  userPrompt_of "!droidhello" = "hello"
  /\ userPrompt_of "!droid  hello there " = "hello there"
  /\ exists delivered,
       handler Sample.third_time_lucky ∅ (Sample.from_user "!droidhello") =
         (<["general" := [mkTurn user (JStr "hello"); mkTurn model (JStr "Roger Roger")]]> ∅,
          SendTyping :: snd (getResponse Sample.third_time_lucky "hello" []) ++ delivered).
Proof.
  split; [reflexivity|]. split; [reflexivity|].
  destruct (C10_trigger_needs_no_separator Sample.third_time_lucky ∅
              (Sample.from_user "!droidhello") eq_refl eq_refl)
    as (_ & _ & _ & Hcall).
  destruct (Hcall ltac:(discriminate) eq_refl) as [delivered Heq].
  exists delivered. exact Heq.
Defined.

(** * Waiting and answering *)

(** X5. With the draws of [Math.random] in the unit interval, each wait of a
    call lasts at least 1 second and at most 3 seconds, and all the waits of
    a call together last at most 5 seconds. The bounds are not strict: a
    delay rounded to a double can reach them. *)
Theorem getResponse_waits_at_most_5s
    (env : Env) (userMessage : string) (history : list Turn) :
  unit_draws env ->
  (sleep_time (snd (getResponse env userMessage history)) <= 5000)%Q
  /\ forall d,
       In (Sleep d) (snd (getResponse env userMessage history)) ->
       (1000 <= d)%Q /\ (d <= 3000)%Q.
Proof.
  intros Hdraws. split.
  - destruct (key_cases env) as [Hnone | (key & Hkey & Hne)].
    + rewrite (getResponse_without_key _ _ _ Hnone). cbn. lra.
    + destruct (getResponse_exits env key userMessage history Hkey Hne)
        as (k & value & tail & Hk & _ & Hexit & ->).
      cbn [snd]. rewrite sleep_time_app. cbn [sleep_time].
      rewrite (loop_exit_no_sleep env k value tail Hexit).
      pose proof (sleep_time_retries env (apiURL key)
                    {| contents := history ++ [mkTurn user (JStr userMessage)];
                       systemInstruction := SYSTEM_PROMPT |} k Hdraws
                    ltac:(unfold MAX_RETRIES in Hk; lia)).
      lra.
  - intros d Hin. unfold getResponse in Hin.
    destruct (GEMINI_API_KEY env) as [[|c key]|];
      try (cbn in Hin; destruct Hin as [Habs | []]; discriminate).
    apply sleeps_are_delays in Hin as (k & Hk & ->).
    destruct (Hdraws k) as [Hlow Hhigh].
    assert (Hcases : k = 0%nat \/ k = 1%nat) by (unfold MAX_RETRIES in Hk; lia).
    destruct Hcases as [-> | ->]; [rewrite delay_0 | rewrite delay_1]; lra.
Qed.

Lemma getResponse_waits_witness :
  (sleep_time (snd (getResponse Sample.always_429 "hi" [])) <= 5000)%Q.
Proof.
  apply (getResponse_waits_at_most_5s Sample.always_429 "hi" []).
  intros k. split; [vm_compute; discriminate | reflexivity].
Defined.



